(** * The post-receive git hook of the githook controller

    A shallow embedding of [app/api/controller/githook/post_receive.go]:
    the classification of pushed reference updates into domain events and
    the pull-request messages returned to the pushing client.

    Go strings are byte strings ([string]), [int64] identifiers are [Z],
    slices are lists.  The collaborators of the controller (event reporter,
    pull-request store, URL provider, logger) are observed through the
    ordered log of the calls the hook makes to them. *)

From Stdlib Require Import String Ascii List ZArith Bool Lia DecimalString.
Import ListNotations.
Local Open Scope string_scope.
Local Open Scope list_scope.

(** ** Go primitives used by the hook *)

Module Go.

(** [error] values are carried as their message. *)
Definition error := string.

(** A Go [(T, error)] result. *)
Inductive result (A : Type) : Type :=
| Ok (a : A)
| Err (e : error).
Arguments Ok {A} a.
Arguments Err {A} e.

Definition is_err {A} (r : result A) : bool :=
  match r with Ok _ => false | Err _ => true end.

(** [strings.HasPrefix(s, p)]. *)
Definition HasPrefix (s p : string) : bool := String.prefix p s.

(** [s[n:]] on a byte string; a run-time panic ([None]) when [n > len(s)]. *)
Fixpoint slice_from (s : string) (n : nat) : option string :=
  match n with
  | O => Some s
  | S n' =>
      match s with
      | EmptyString => None
      | String _ s' => slice_from s' n'
      end
  end.

(** [xs[i]] on a slice; a run-time panic ([None]) out of range. *)
Definition index {A} (xs : list A) (i : nat) : option A := nth_error xs i.

(** [xs[i] = v] on a slice; a run-time panic ([None]) out of range. *)
Fixpoint slice_set {A} (xs : list A) (i : nat) (v : A) : option (list A) :=
  match xs, i with
  | [], _ => None
  | _ :: tl, O => Some (v :: tl)
  | x :: tl, S i' =>
      match slice_set tl i' v with
      | Some tl' => Some (x :: tl')
      | None => None
      end
  end.

(** [make([]string, n)]: [n] zero values. *)
Definition make_strings (n : nat) : list string := repeat EmptyString n.

(** The verb [%d] of [fmt.Sprintf] on an integer. *)
Definition fmt_d (z : Z) : string := NilZero.string_of_int (Z.to_int z).

End Go.
Import Go.

(** ** Data model *)

(** [githook.ReferenceUpdate]. *)
Record ReferenceUpdate := {
  Ref : string;
  Old : string;
  New : string
}.

(** [githook.PostReceiveInput]. *)
Record PostReceiveInput := {
  RefUpdates : list ReferenceUpdate
}.

(** [githook.Output]. *)
Record Output := {
  Messages : list string
}.

(** The fields of [types.Repository] the hook reads. *)
Record Repository := {
  ID : Z;
  Path : string;
  DefaultBranch : string
}.

(** The fields of [types.PullReq] the hook reads. *)
Record PullReq := {
  Number : Z;
  Title : string
}.

(** The members of the [enum] package the hook names, with siblings of
    theirs. *)
Inductive PullReqState := PullReqStateOpen | PullReqStateMerged | PullReqStateClosed.
Inductive Order := OrderAsc | OrderDesc.
Inductive PullReqSort := PullReqSortCreated | PullReqSortNumber.
Inductive Permission := PermissionRepoView | PermissionRepoEdit.

(** The fields of [types.PullReqFilter] set by the hook. *)
Record PullReqFilter := {
  Page : Z;
  Size : Z;
  SourceRepoID : Z;
  SourceBranch : string;
  States : list PullReqState;
  FilterOrder : Order;
  FilterSort : PullReqSort
}.

(** Payload of the four created and deleted events
    ([events.BranchCreatedPayload], [events.BranchDeletedPayload],
    [events.TagCreatedPayload], [events.TagDeletedPayload]), which the hook
    fills with the same four fields. *)
Record RefPayload := {
  RepoID : Z;
  PrincipalID : Z;
  PRef : string;
  SHA : string
}.

(** Payload of [events.BranchUpdatedPayload] and [events.TagUpdatedPayload]. *)
Record RefUpdatedPayload := {
  URepoID : Z;
  UPrincipalID : Z;
  URef : string;
  OldSHA : string;
  NewSHA : string;
  Forced : bool
}.

(** One call made by the hook to a collaborator: the six methods of
    [c.gitReporter], [c.pullreqStore.List], and the warning written to the
    logger (the error and the formatted message). *)
Inductive Call :=
| BranchCreated (p : RefPayload)
| BranchDeleted (p : RefPayload)
| BranchUpdated (p : RefUpdatedPayload)
| TagCreated (p : RefPayload)
| TagDeleted (p : RefPayload)
| TagUpdated (p : RefUpdatedPayload)
| PullReqList (f : PullReqFilter)
| LogWarn (err : error) (msg : string).

(** ** The hook monad: a call log, and [None] for a run-time panic

    The panics followed are those of an index, a slice expression or a
    slice write out of range.  The answers of the collaborators are values,
    never nil pointers. *)

Definition M (A : Type) : Type := (option A * list Call)%type.

Definition ret {A} (a : A) : M A := (Some a, []).

Definition bind {A B} (m : M A) (f : A -> M B) : M B :=
  match m with
  | (None, t) => (None, t)
  | (Some a, t) => let (r, t') := f a in (r, t ++ t')
  end.

Definition call (c : Call) : M unit := (Some tt, [c]).

(** Lifts a Go operation that may panic. *)
Definition lift {A} (o : option A) : M A := (o, []).

Definition value {A} (m : M A) : option A := fst m.
Definition trace {A} (m : M A) : list Call := snd m.

Declare Scope hook_scope.
Delimit Scope hook_scope with hook.
Notation "x <- m ;; k" := (bind m (fun x => k))
  (at level 61, m at next level, right associativity) : hook_scope.
Notation "m ;;; k" := (bind m (fun _ => k))
  (at level 61, right associativity) : hook_scope.
Local Open Scope hook_scope.

(** ** Constants *)

(** gitReferenceNamePrefixBranch is the prefix of references of type branch. *)
Definition gitReferenceNamePrefixBranch : string := "refs/heads/".

(** gitReferenceNamePrefixTag is the prefix of references of type tag. *)
Definition gitReferenceNamePrefixTag : string := "refs/tags/".

(** Modelled from the spec: [types.NilSHA], a constant of package [types];
    the distinguished all-zero SHA constant that is the sentinel for a
    reference that does not exist. *)
Definition NilSHA : string := "0000000000000000000000000000000000000000".

(** ** The controller *)

Section Hook.

(** [auth.Session], opaque to the hook. *)
Variable Session : Type.

(** The collaborators of [Controller] whose answers the hook depends on.
    [getRepoCheckAccess] is a method of the controller declared beside
    the hook; [pullreqStore_List] is [c.pullreqStore.List]; the two URL
    functions are those of [c.urlProvider]. *)
Record Controller := {
  getRepoCheckAccess : Session -> Z -> Permission -> result Repository;
  pullreqStore_List : PullReqFilter -> result (list PullReq);
  GenerateUIPRURL : string -> Z -> string;
  GenerateUICompareURL : string -> string -> string -> string
}.

Variable c : Controller.

Definition reportBranchEvent (repoID principalID : Z)
    (branchUpdate : ReferenceUpdate) : M unit :=
  if (Old branchUpdate =? NilSHA)%string then
    call (BranchCreated {|
      RepoID := repoID;
      PrincipalID := principalID;
      PRef := Ref branchUpdate;
      SHA := New branchUpdate |})
  else if (New branchUpdate =? NilSHA)%string then
    call (BranchDeleted {|
      RepoID := repoID;
      PrincipalID := principalID;
      PRef := Ref branchUpdate;
      SHA := Old branchUpdate |})
  else
    call (BranchUpdated {|
      URepoID := repoID;
      UPrincipalID := principalID;
      URef := Ref branchUpdate;
      OldSHA := Old branchUpdate;
      NewSHA := New branchUpdate;
      Forced := false |}).

Definition reportTagEvent (repoID principalID : Z)
    (tagUpdate : ReferenceUpdate) : M unit :=
  if (Old tagUpdate =? NilSHA)%string then
    call (TagCreated {|
      RepoID := repoID;
      PrincipalID := principalID;
      PRef := Ref tagUpdate;
      SHA := New tagUpdate |})
  else if (New tagUpdate =? NilSHA)%string then
    call (TagDeleted {|
      RepoID := repoID;
      PrincipalID := principalID;
      PRef := Ref tagUpdate;
      SHA := Old tagUpdate |})
  else
    call (TagUpdated {|
      URepoID := repoID;
      UPrincipalID := principalID;
      URef := Ref tagUpdate;
      OldSHA := Old tagUpdate;
      NewSHA := New tagUpdate;
      Forced := true |}).

(** The body of the [for ... range in.RefUpdates] loop. *)
Definition reportReferenceEvent (repoID principalID : Z)
    (refUpdate : ReferenceUpdate) : M unit :=
  if HasPrefix (Ref refUpdate) gitReferenceNamePrefixBranch then
    reportBranchEvent repoID principalID refUpdate
  else if HasPrefix (Ref refUpdate) gitReferenceNamePrefixTag then
    reportTagEvent repoID principalID refUpdate
  else
    ret tt.

Fixpoint reportReferenceEvents_loop (repoID principalID : Z)
    (refUpdates : list ReferenceUpdate) : M unit :=
  match refUpdates with
  | [] => ret tt
  | refUpdate :: rest =>
      reportReferenceEvent repoID principalID refUpdate ;;;
      reportReferenceEvents_loop repoID principalID rest
  end.

Definition reportReferenceEvents (repoID principalID : Z)
    (input : PostReceiveInput) : M unit :=
  reportReferenceEvents_loop repoID principalID (RefUpdates input).

(** The two lines written for the pull request at position [i] of [prs],
    then the rest of the [for i, pr := range prs] loop. *)
Fixpoint fill_msgs (repo : Repository) (prs : list PullReq) (i : nat)
    (msgs : list string) : option (list string) :=
  match prs with
  | [] => Some msgs
  | pr :: rest =>
      match slice_set msgs (2 * i + 1)
              ("  (#" ++ fmt_d (Number pr) ++ ") " ++ Title pr)%string with
      | None => None
      | Some msgs1 =>
          match slice_set msgs1 (2 * i + 2)
                  ("    " ++ GenerateUIPRURL c (Path repo) (Number pr))%string with
          | None => None
          | Some msgs2 => fill_msgs repo rest (S i) msgs2
          end
      end
  end.

(** handlePRMessaging checks any single branch push for pr information and
    returns an according response if needed.  The output object the Go code
    mutates through its pointer is passed in and handed back. *)
Definition handlePRMessaging (repo : Repository) (input : PostReceiveInput)
    (out : Output) : M Output :=
  if negb (length (RefUpdates input) =? 1)%nat then ret out else
  u <- lift (index (RefUpdates input) 0) ;;
  if negb (HasPrefix (Ref u) gitReferenceNamePrefixBranch) then ret out else
  u <- lift (index (RefUpdates input) 0) ;;
  if (New u =? NilSHA)%string then ret out else
  u <- lift (index (RefUpdates input) 0) ;;
  branchName <-
    lift (slice_from (Ref u) (String.length gitReferenceNamePrefixBranch)) ;;
  let filter := {|
    Page := 1;
    Size := 2;
    SourceRepoID := ID repo;
    SourceBranch := branchName;
    States := [PullReqStateOpen];
    FilterOrder := OrderAsc;
    FilterSort := PullReqSortCreated |} in
  call (PullReqList filter) ;;;
  match pullreqStore_List c filter with
  | Err err =>
      call (LogWarn err
        ("failed to find pullrequests for branch '" ++ branchName
           ++ "' originating from repo '" ++ Path repo ++ "'")%string) ;;;
      ret out
  | Ok prs =>
      if (0 <? length prs)%nat then
        msgs <- lift (slice_set (make_strings (2 * length prs + 1)) 0
                        ("Branch '" ++ branchName ++ "' has open PRs:")%string) ;;
        msgs <- lift (fill_msgs repo prs 0 msgs) ;;
        ret {| Messages := Messages out ++ msgs |}
      else
        ret {| Messages := Messages out ++
          [ ("Create a new PR for branch '" ++ branchName ++ "'")%string;
            ("  " ++ GenerateUICompareURL c (Path repo) (DefaultBranch repo)
                       branchName)%string ] |}
  end.

(** PostReceive executes the post-receive hook for a git repository.
    [input] is the pointer [in]: [None] is the nil pointer.  The returned
    pair of an output pointer and an error is a [result]. *)
Definition PostReceive (session : Session) (repoID principalID : Z)
    (input : option PostReceiveInput) : M (result Output) :=
  match input with
  | None => ret (Err "input is nil")
  | Some input =>
      match getRepoCheckAccess c session repoID PermissionRepoEdit with
      | Err err => ret (Err err)
      | Ok repo =>
          reportReferenceEvents repoID principalID input ;;;
          let out := {| Messages := [] |} in
          out <- handlePRMessaging repo input out ;;
          ret (Ok out)
      end
  end.

End Hook.

Arguments getRepoCheckAccess {Session} _ _ _ _.
Arguments pullreqStore_List {Session} _ _.
Arguments GenerateUIPRURL {Session} _ _ _.
Arguments GenerateUICompareURL {Session} _ _ _ _.
Arguments fill_msgs {Session} c repo prs i msgs.
Arguments handlePRMessaging {Session} c repo input out.
Arguments PostReceive {Session} c session repoID principalID input.

(** ** Reading the call log *)

(** The class of a reference by its name prefix and the outcome of an
    update by its SHA transition. *)
Inductive RefClass := Branch | Tag.
Inductive Transition := Created | Deleted | Updated.

(** What a call to the event reporter says: class, transition and
    reference; [None] for the calls that are not events. *)
Definition call_kind (cl : Call) : option (RefClass * Transition * string) :=
  match cl with
  | BranchCreated p => Some (Branch, Created, PRef p)
  | BranchDeleted p => Some (Branch, Deleted, PRef p)
  | BranchUpdated p => Some (Branch, Updated, URef p)
  | TagCreated p => Some (Tag, Created, PRef p)
  | TagDeleted p => Some (Tag, Deleted, PRef p)
  | TagUpdated p => Some (Tag, Updated, URef p)
  | PullReqList _ => None
  | LogWarn _ _ => None
  end.

Definition is_event (cl : Call) : bool :=
  match call_kind cl with Some _ => true | None => false end.

Definition is_lookup (cl : Call) : bool :=
  match cl with PullReqList _ => true | _ => false end.

Definition is_warning (cl : Call) : bool :=
  match cl with LogWarn _ _ => true | _ => false end.

(** The forced flag an updated event must carry: unavailable ([false]) on
    branches, always [true] on tags. *)
Definition forced_ok (cl : Call) : bool :=
  match cl with
  | BranchUpdated p => negb (Forced p)
  | TagUpdated p => Forced p
  | _ => true
  end.

(** ** The behaviour the specification describes *)

(** Classification by SHA transition: [old == Nil] is Created, else
    [new == Nil] is Deleted, else Updated. *)
Definition spec_transition (u : ReferenceUpdate) : Transition :=
  if (Old u =? NilSHA)%string then Created
  else if (New u =? NilSHA)%string then Deleted
  else Updated.

(** Classification by ref-name prefix: branch, tag, or ignored. *)
Definition spec_class (u : ReferenceUpdate) : option RefClass :=
  if HasPrefix (Ref u) gitReferenceNamePrefixBranch then Some Branch
  else if HasPrefix (Ref u) gitReferenceNamePrefixTag then Some Tag
  else None.

(** One event per classified update, none for an ignored one. *)
Definition spec_events (u : ReferenceUpdate)
    : list (RefClass * Transition * string) :=
  match spec_class u with
  | Some k => [(k, spec_transition u, Ref u)]
  | None => []
  end.

(** The push touched exactly one reference, a branch, and did not delete
    it. *)
Definition spec_pr_messaging_applies (input : PostReceiveInput) : bool :=
  match RefUpdates input with
  | [u] =>
      HasPrefix (Ref u) gitReferenceNamePrefixBranch
      && negb (New u =? NilSHA)%string
  | _ => false
  end.

(** The message block suggesting a new pull request. *)
Definition spec_create_block (compareURL branch : string) : list string :=
  [ ("Create a new PR for branch '" ++ branch ++ "'")%string;
    ("  " ++ compareURL)%string ].

(** The two lines listing one open pull request. *)
Definition spec_pr_lines (prURL : Z -> string) (pr : PullReq) : list string :=
  [ ("  (#" ++ fmt_d (Number pr) ++ ") " ++ Title pr)%string;
    ("    " ++ prURL (Number pr))%string ].

(** The message block listing the open pull requests of a branch. *)
Definition spec_open_block (prURL : Z -> string) (branch : string)
    (prs : list PullReq) : list string :=
  ("Branch '" ++ branch ++ "' has open PRs:")%string
    :: flat_map (spec_pr_lines prURL) prs.

(** The query of the lookup: first page of size two, open pull requests of
    the branch, ascending by creation. *)
Definition spec_filter (repo : Repository) (branch : string) : PullReqFilter :=
  {| Page := 1;
     Size := 2;
     SourceRepoID := ID repo;
     SourceBranch := branch;
     States := [PullReqStateOpen];
     FilterOrder := OrderAsc;
     FilterSort := PullReqSortCreated |}.

(** The warning logged when the lookup fails: the error and the message. *)
Definition lookup_warning (repo : Repository) (branch : string) (err : error)
    : Call :=
  LogWarn err
    ("failed to find pullrequests for branch '" ++ branch
       ++ "' originating from repo '" ++ Path repo ++ "'")%string.

(** ** A pull-request store *)

(** Modelled from the spec: the pull-request store behind
    [c.pullreqStore.List], implemented in the store package.  The lookup is
    a query by source repository, source branch and state filter that
    returns ordered summaries. *)
Record PullReqRow := {
  RowPR : PullReq;
  RowSourceRepoID : Z;
  RowSourceBranch : string;
  RowState : PullReqState;
  RowCreated : Z
}.

Definition PullReqState_eqb (a b : PullReqState) : bool :=
  match a, b with
  | PullReqStateOpen, PullReqStateOpen => true
  | PullReqStateMerged, PullReqStateMerged => true
  | PullReqStateClosed, PullReqStateClosed => true
  | _, _ => false
  end.

Definition row_matches (f : PullReqFilter) (r : PullReqRow) : bool :=
  (RowSourceRepoID r =? SourceRepoID f)%Z
  && (RowSourceBranch r =? SourceBranch f)%string
  && existsb (PullReqState_eqb (RowState r)) (States f).

Definition row_key (s : PullReqSort) (r : PullReqRow) : Z :=
  match s with
  | PullReqSortCreated => RowCreated r
  | PullReqSortNumber => Number (RowPR r)
  end.

Fixpoint row_insert (s : PullReqSort) (r : PullReqRow)
    (rows : list PullReqRow) : list PullReqRow :=
  match rows with
  | [] => [r]
  | r' :: rest =>
      if (row_key s r <? row_key s r')%Z then r :: rows
      else r' :: row_insert s r rest
  end.

Definition row_sort (s : PullReqSort) (o : Order)
    (rows : list PullReqRow) : list PullReqRow :=
  let asc := fold_right (row_insert s) [] rows in
  match o with OrderAsc => asc | OrderDesc => rev asc end.

(** Modelled from the spec: the listing of the store over the rows [db],
    every row that matches the query, in the order the query names. *)
Definition modelStore_List (db : list PullReqRow) (f : PullReqFilter)
    : result (list PullReq) :=
  Ok (map RowPR
        (row_sort (FilterSort f) (FilterOrder f) (filter (row_matches f) db))).

(** ** Concrete controllers and pushes used to exercise the hook *)

Definition exampleRepo : Repository :=
  {| ID := 7; Path := "acme/widgets"; DefaultBranch := "main" |}.

Definition exampleDB : list PullReqRow :=
  [ {| RowPR := {| Number := 44; Title := "Fix Z" |};
       RowSourceRepoID := 7; RowSourceBranch := "feature";
       RowState := PullReqStateOpen; RowCreated := 300 |};
    {| RowPR := {| Number := 42; Title := "Add X" |};
       RowSourceRepoID := 7; RowSourceBranch := "feature";
       RowState := PullReqStateOpen; RowCreated := 100 |};
    {| RowPR := {| Number := 41; Title := "Old" |};
       RowSourceRepoID := 7; RowSourceBranch := "feature";
       RowState := PullReqStateMerged; RowCreated := 50 |};
    {| RowPR := {| Number := 43; Title := "Add Y" |};
       RowSourceRepoID := 7; RowSourceBranch := "feature";
       RowState := PullReqStateOpen; RowCreated := 200 |} ].

Definition exampleURLPR (repoPath : string) (number : Z) : string :=
  ("https://git.example/" ++ repoPath ++ "/pulls/" ++ fmt_d number)%string.

Definition exampleURLCompare (repoPath a b : string) : string :=
  ("https://git.example/" ++ repoPath ++ "/pulls/compare/" ++ a ++ "..." ++ b)%string.

(** Access granted; the store lists the rows of [db]. *)
Definition exampleController (db : list PullReqRow) : Controller unit :=
  {| getRepoCheckAccess := fun _ _ _ => Ok exampleRepo;
     pullreqStore_List := modelStore_List db;
     GenerateUIPRURL := exampleURLPR;
     GenerateUICompareURL := exampleURLCompare |}.

(** Access granted; the store fails. *)
Definition failingStoreController : Controller unit :=
  {| getRepoCheckAccess := fun _ _ _ => Ok exampleRepo;
     pullreqStore_List := fun _ => Err "store unavailable";
     GenerateUIPRURL := exampleURLPR;
     GenerateUICompareURL := exampleURLCompare |}.

(** Access refused. *)
Definition deniedController : Controller unit :=
  {| getRepoCheckAccess := fun _ _ _ => Err "forbidden";
     pullreqStore_List := modelStore_List [];
     GenerateUIPRURL := exampleURLPR;
     GenerateUICompareURL := exampleURLCompare |}.

Definition sha_abc : string := "abc1230000000000000000000000000000000000".
Definition sha_def : string := "def4560000000000000000000000000000000000".

Definition pushOf (ref old new : string) : PostReceiveInput :=
  {| RefUpdates := [ {| Ref := ref; Old := old; New := new |} ] |}.

(** ** More readings of the call log *)

(** The repository and principal an event names. *)
Definition call_ids (cl : Call) : option (Z * Z) :=
  match cl with
  | BranchCreated p | BranchDeleted p | TagCreated p | TagDeleted p =>
      Some (RepoID p, PrincipalID p)
  | BranchUpdated p | TagUpdated p => Some (URepoID p, UPrincipalID p)
  | PullReqList _ => None
  | LogWarn _ _ => None
  end.

(** The event names the given repository and principal; holds of the calls
    that are not events. *)
Definition ids_ok (repoID principalID : Z) (cl : Call) : bool :=
  match call_ids cl with
  | Some (r, p) => (r =? repoID)%Z && (p =? principalID)%Z
  | None => true
  end.

(** The event names one of the given references; holds of the calls that
    are not events. *)
Definition ref_among (refs : list string) (cl : Call) : bool :=
  match call_kind cl with
  | Some (_, _, r) => existsb (String.eqb r) refs
  | None => true
  end.

(** The SHAs of an event fit its kind: a deleted event does not carry
    NilSHA, an updated event carries it neither as old nor as new SHA. *)
Definition sha_ok (cl : Call) : bool :=
  match cl with
  | BranchDeleted p | TagDeleted p => negb (SHA p =? NilSHA)%string
  | BranchUpdated p | TagUpdated p =>
      negb (OldSHA p =? NilSHA)%string && negb (NewSHA p =? NilSHA)%string
  | _ => true
  end.

(** The lookup asks for the pull requests of repository [repo] whose source
    branch is the one named by the reference [ref]. *)
Definition lookup_ok (repo : Repository) (ref : string) (cl : Call) : bool :=
  match cl with
  | PullReqList f =>
      (SourceRepoID f =? ID repo)%Z
      && (ref =? gitReferenceNamePrefixBranch ++ SourceBranch f)%string
  | _ => true
  end.

(** A reference that is neither a branch nor a tag. *)
Definition other_ref (u : ReferenceUpdate) : bool :=
  negb (HasPrefix (Ref u) gitReferenceNamePrefixBranch)
  && negb (HasPrefix (Ref u) gitReferenceNamePrefixTag).

(** What the messaging reads of an update: its reference and its new SHA. *)
Definition ref_and_new (u : ReferenceUpdate) : string * string :=
  (Ref u, New u).

(** ** Space attributes ([types/enum/space.go]) *)

Section SpaceAttrs.

(** The string constants of package [enum] the two functions name, and
    [strings.ToLower] of the Go library. *)
Variables uid created createdAt updated updatedAt undefined : string.
Variable ToLower : string -> string.

(** SpaceAttr defines space attributes that can be used for sorting and
    filtering: an [int]. *)
Definition SpaceAttr : Type := Z.

(** The enumeration, numbered by [iota]. *)
Definition SpaceAttrNone : SpaceAttr := 0%Z.
Definition SpaceAttrUID : SpaceAttr := 1%Z.
Definition SpaceAttrCreated : SpaceAttr := 2%Z.
Definition SpaceAttrUpdated : SpaceAttr := 3%Z.

(** ParseSpaceAttr parses the space attribute string and returns the
    equivalent enumeration. *)
Definition ParseSpaceAttr (s : string) : SpaceAttr :=
  let v := ToLower s in
  if (v =? uid)%string then SpaceAttrUID
  else if ((v =? created) || (v =? createdAt))%string then SpaceAttrCreated
  else if ((v =? updated) || (v =? updatedAt))%string then SpaceAttrUpdated
  else SpaceAttrNone.

(** String returns the string representation of the attribute (the method
    [String] of [SpaceAttr]). *)
Definition SpaceAttr_String (a : SpaceAttr) : string :=
  if (a =? SpaceAttrUID)%Z then uid
  else if (a =? SpaceAttrCreated)%Z then created
  else if (a =? SpaceAttrUpdated)%Z then updated
  else if (a =? SpaceAttrNone)%Z then ""
  else undefined.

(** The case constants of the switch of [ParseSpaceAttr]. *)
Definition parse_cases : list string :=
  [uid; created; createdAt; updated; updatedAt].

End SpaceAttrs.

(** Lower-casing of the ASCII letters, to run the parser on examples.  It
    agrees with [strings.ToLower] on strings of ASCII bytes only: the
    library function maps the other characters by their Unicode case. *)
Definition ascii_to_lower (a : ascii) : ascii :=
  let n := nat_of_ascii a in
  if ((65 <=? n) && (n <=? 90))%nat then ascii_of_nat (n + 32) else a.

Fixpoint asciiToLower (s : string) : string :=
  match s with
  | EmptyString => EmptyString
  | String a s' => String (ascii_to_lower a) (asciiToLower s')
  end.

Definition exampleParse : string -> SpaceAttr :=
  ParseSpaceAttr "uid" "created" "created_at" "updated" "updated_at" asciiToLower.

Definition exampleString : SpaceAttr -> string :=
  SpaceAttr_String "uid" "created" "updated" "undefined".

(** ** The branch and tag selector ([BranchTagSelect.tsx]) *)

(** [s] without its first [n] characters. *)
Fixpoint string_drop (n : nat) (s : string) : string :=
  match n, s with
  | O, _ => s
  | S _, EmptyString => EmptyString
  | S n', String _ s' => string_drop n' s'
  end.

(** [s.replace(pattern, replacement)] for a string pattern: the leftmost
    occurrence of [pattern] is replaced.  The replacement is taken as it
    is, which is what JavaScript does with one that holds no dollar sign. *)
Fixpoint js_replace (pattern replacement s : string) : string :=
  if String.prefix pattern s then
    (replacement ++ string_drop (String.length pattern) s)%string
  else
    match s with
    | EmptyString => EmptyString
    | String a s' => String a (js_replace pattern replacement s')
    end.

(** [s.includes(pattern)]. *)
Fixpoint js_includes (pattern s : string) : bool :=
  String.prefix pattern s
  || match s with
     | EmptyString => false
     | String _ s' => js_includes pattern s'
     end.

(** [GitRefType], as the selector uses it. *)
Inductive GitRefType := BRANCH | TAG.

Section BranchTagSelect.

(** [REFS_TAGS_PREFIX] of [utils/GitUtils]. *)
Variable REFS_TAGS_PREFIX : string.

(** The label of the button: [gitRef.replace(REFS_TAGS_PREFIX, '')]. *)
Definition buttonText (gitRef : string) : string :=
  js_replace REFS_TAGS_PREFIX "" gitRef.

(** The reference handed to [onSelect] when the entry [ref] of the list of
    type [type] is chosen: [ref] for [GitRefType.BRANCH], else the template
    literal of [REFS_TAGS_PREFIX] followed by [ref]. *)
Definition selectedRef (ref : string) (type : GitRefType) : string :=
  match type with
  | BRANCH => ref
  | TAG => (REFS_TAGS_PREFIX ++ ref)%string
  end.

End BranchTagSelect.

(** ** Runs on concrete pushes *)

Example fmt_d_runs :
  fmt_d 42 = "42" /\ fmt_d 0 = "0" /\ fmt_d (-7) = "-7" /\ fmt_d 1005 = "1005".
Proof. repeat split. Qed.

Example slice_runs :
  slice_from "refs/heads/feature" 11 = Some "feature"
  /\ slice_from "refs" 11 = None
  /\ slice_set ["a"; "b"] 1 "c" = Some ["a"; "c"]
  /\ slice_set ["a"; "b"] 2 "c" = None.
Proof. repeat split. Qed.

Example run_batch_push :
  PostReceive (exampleController exampleDB) tt 7 3
    (Some {| RefUpdates :=
       [ {| Ref := "refs/heads/feature"; Old := sha_abc; New := sha_def |};
         {| Ref := "refs/notes/commits"; Old := NilSHA; New := sha_abc |};
         {| Ref := "refs/tags/v2.0"; Old := sha_abc; New := sha_def |};
         {| Ref := "refs/heads/gone"; Old := sha_def; New := NilSHA |} ] |})
  = (Some (Ok {| Messages := [] |}),
     [ BranchUpdated {| URepoID := 7; UPrincipalID := 3;
                        URef := "refs/heads/feature";
                        OldSHA := sha_abc; NewSHA := sha_def; Forced := false |};
       TagUpdated {| URepoID := 7; UPrincipalID := 3;
                     URef := "refs/tags/v2.0";
                     OldSHA := sha_abc; NewSHA := sha_def; Forced := true |};
       BranchDeleted {| RepoID := 7; PrincipalID := 3;
                        PRef := "refs/heads/gone"; SHA := sha_def |} ]).
Proof. reflexivity. Qed.

Example run_create_feature :
  PostReceive (exampleController []) tt 7 3
    (Some (pushOf "refs/heads/feature" NilSHA sha_abc))
  = (Some (Ok {| Messages :=
       [ "Create a new PR for branch 'feature'";
         "  https://git.example/acme/widgets/pulls/compare/main...feature" ] |}),
     [ BranchCreated {| RepoID := 7; PrincipalID := 3;
                        PRef := "refs/heads/feature"; SHA := sha_abc |};
       PullReqList (spec_filter exampleRepo "feature") ]).
Proof. reflexivity. Qed.

Example run_open_prs :
  value (PostReceive (exampleController exampleDB) tt 7 3
    (Some (pushOf "refs/heads/feature" sha_abc sha_def)))
  = Some (Ok {| Messages :=
       [ "Branch 'feature' has open PRs:";
         "  (#42) Add X";
         "    https://git.example/acme/widgets/pulls/42";
         "  (#43) Add Y";
         "    https://git.example/acme/widgets/pulls/43";
         "  (#44) Fix Z";
         "    https://git.example/acme/widgets/pulls/44" ] |}).
Proof. reflexivity. Qed.

Example run_delete_tag :
  PostReceive (exampleController exampleDB) tt 7 3
    (Some (pushOf "refs/tags/v1.0" sha_abc NilSHA))
  = (Some (Ok {| Messages := [] |}),
     [ TagDeleted {| RepoID := 7; PrincipalID := 3;
                     PRef := "refs/tags/v1.0"; SHA := sha_abc |} ]).
Proof. reflexivity. Qed.

Example run_nil_to_nil_tag :
  trace (PostReceive (exampleController exampleDB) tt 7 3
    (Some (pushOf "refs/tags/v1.0" NilSHA NilSHA)))
  = [ TagCreated {| RepoID := 7; PrincipalID := 3;
                    PRef := "refs/tags/v1.0"; SHA := NilSHA |} ].
Proof. reflexivity. Qed.

Example run_store_failure :
  PostReceive failingStoreController tt 7 3
    (Some (pushOf "refs/heads/feature" sha_abc sha_def))
  = (Some (Ok {| Messages := [] |}),
     [ BranchUpdated {| URepoID := 7; UPrincipalID := 3;
                        URef := "refs/heads/feature";
                        OldSHA := sha_abc; NewSHA := sha_def; Forced := false |};
       PullReqList (spec_filter exampleRepo "feature");
       LogWarn "store unavailable"
         "failed to find pullrequests for branch 'feature' originating from repo 'acme/widgets'" ]).
Proof. reflexivity. Qed.

Example run_denied :
  PostReceive deniedController tt 7 3
    (Some (pushOf "refs/heads/feature" NilSHA sha_abc))
  = (Some (Err "forbidden"), []).
Proof. reflexivity. Qed.

(** ** Laws of the hook monad *)

Lemma bind_ret {A B} (a : A) (f : A -> M B) : bind (ret a) f = f a.
Proof. unfold bind, ret. destruct (f a) as [r t]. reflexivity. Qed.

Lemma bind_lift_some {A B} (a : A) (f : A -> M B) : bind (lift (Some a)) f = f a.
Proof. apply bind_ret. Qed.

Lemma bind_run {A B} (m : M A) (f : A -> M B) (a : A) (t : list Call) :
  m = (Some a, t) ->
  bind m f = (value (f a), t ++ trace (f a)).
Proof. intros ->. unfold bind, value, trace. destruct (f a). reflexivity. Qed.

Lemma run_eta {A} (m : M A) : m = (value m, trace m).
Proof. destruct m. reflexivity. Qed.

(** ** Go strings *)

Lemma HasPrefix_append (p s : string) : HasPrefix (p ++ s) p = true.
Proof.
  unfold HasPrefix. induction p as [|a p IH]; simpl.
  - destruct s; reflexivity.
  - destruct (ascii_dec a a) as [_|n]; [exact IH | contradiction].
Qed.

Lemma HasPrefix_split (p s : string) :
  HasPrefix s p = true -> exists r, s = (p ++ r)%string.
Proof.
  unfold HasPrefix. revert s. induction p as [|a p IH]; intros s H.
  - exists s. reflexivity.
  - destruct s as [|b s]; simpl in H; [discriminate|].
    destruct (ascii_dec a b) as [->|]; [|discriminate].
    destruct (IH s H) as [r ->]. exists r. reflexivity.
Qed.

Lemma slice_from_append (p s : string) :
  slice_from (p ++ s) (String.length p) = Some s.
Proof. induction p as [|a p IH]; simpl; [destruct s; reflexivity | exact IH]. Qed.

(** A branch reference is not a tag reference. *)
Lemma branch_prefix_not_tag (s : string) :
  HasPrefix s gitReferenceNamePrefixBranch = true ->
  HasPrefix s gitReferenceNamePrefixTag = false.
Proof.
  intros H. destruct (HasPrefix_split _ _ H) as [r ->]. reflexivity.
Qed.

Lemma tag_prefix_not_branch (s : string) :
  HasPrefix s gitReferenceNamePrefixTag = true ->
  HasPrefix s gitReferenceNamePrefixBranch = false.
Proof.
  intros H. destruct (HasPrefix_split _ _ H) as [r ->]. reflexivity.
Qed.

(** ** Go slices *)

Lemma slice_set_app {A} (pre : list A) (x v : A) (tl : list A) :
  slice_set (pre ++ x :: tl) (length pre) v = Some (pre ++ v :: tl).
Proof.
  induction pre as [|y pre IH]; simpl; [reflexivity|].
  rewrite IH. reflexivity.
Qed.

(** ** Event reporting *)

Lemma reportBranchEvent_run (repoID principalID : Z) (u : ReferenceUpdate) :
  exists cl,
    reportBranchEvent repoID principalID u = (Some tt, [cl])
    /\ call_kind cl = Some (Branch, spec_transition u, Ref u)
    /\ forced_ok cl = true.
Proof.
  unfold reportBranchEvent, spec_transition, call.
  destruct (Old u =? NilSHA)%string; [|destruct (New u =? NilSHA)%string];
    eexists; repeat split.
Qed.

Lemma reportTagEvent_run (repoID principalID : Z) (u : ReferenceUpdate) :
  exists cl,
    reportTagEvent repoID principalID u = (Some tt, [cl])
    /\ call_kind cl = Some (Tag, spec_transition u, Ref u)
    /\ forced_ok cl = true.
Proof.
  unfold reportTagEvent, spec_transition, call.
  destruct (Old u =? NilSHA)%string; [|destruct (New u =? NilSHA)%string];
    eexists; repeat split.
Qed.

Lemma reportReferenceEvent_run (repoID principalID : Z) (u : ReferenceUpdate) :
  exists t,
    reportReferenceEvent repoID principalID u = (Some tt, t)
    /\ map call_kind t = map Some (spec_events u)
    /\ forallb forced_ok t = true.
Proof.
  unfold reportReferenceEvent, spec_events, spec_class.
  destruct (HasPrefix (Ref u) gitReferenceNamePrefixBranch).
  - destruct (reportBranchEvent_run repoID principalID u) as (cl & -> & Hk & Hf).
    exists [cl]. simpl. rewrite Hk, Hf. auto.
  - destruct (HasPrefix (Ref u) gitReferenceNamePrefixTag).
    + destruct (reportTagEvent_run repoID principalID u) as (cl & -> & Hk & Hf).
      exists [cl]. simpl. rewrite Hk, Hf. auto.
    + exists []. auto.
Qed.

Lemma reportReferenceEvents_loop_run (repoID principalID : Z)
    (us : list ReferenceUpdate) :
  exists t,
    reportReferenceEvents_loop repoID principalID us = (Some tt, t)
    /\ map call_kind t = map Some (flat_map spec_events us)
    /\ forallb forced_ok t = true.
Proof.
  induction us as [|u us (t' & IHrun & IHk & IHf)]; simpl.
  - exists []. auto.
  - destruct (reportReferenceEvent_run repoID principalID u) as (t & Hrun & Hk & Hf).
    exists (t ++ t'). split; [|split].
    + rewrite (bind_run _ _ tt t Hrun), IHrun. reflexivity.
    + rewrite !map_app, Hk, IHk. reflexivity.
    + rewrite forallb_app, Hf, IHf. reflexivity.
Qed.

(** C1: every update of a push is classified once, by prefix into branch,
    tag or ignored and by SHA transition into Created (old SHA is NilSHA),
    else Deleted (new SHA is NilSHA), else Updated; the calls made to the
    event reporter are, in the order of the push, exactly one event per
    classified update and nothing else, and the reporting never panics. *)
Theorem C1_classification (repoID principalID : Z) (input : PostReceiveInput) :
  value (reportReferenceEvents repoID principalID input) = Some tt
  /\ map call_kind (trace (reportReferenceEvents repoID principalID input))
     = map Some (flat_map spec_events (RefUpdates input))
  /\ (forall u,
        reportBranchEvent repoID principalID u
        = (Some tt,
           [ if (Old u =? NilSHA)%string then
               BranchCreated {| RepoID := repoID; PrincipalID := principalID;
                                PRef := Ref u; SHA := New u |}
             else if (New u =? NilSHA)%string then
               BranchDeleted {| RepoID := repoID; PrincipalID := principalID;
                                PRef := Ref u; SHA := Old u |}
             else
               BranchUpdated {| URepoID := repoID; UPrincipalID := principalID;
                                URef := Ref u; OldSHA := Old u; NewSHA := New u;
                                Forced := false |} ]))
  /\ (forall u,
        reportTagEvent repoID principalID u
        = (Some tt,
           [ if (Old u =? NilSHA)%string then
               TagCreated {| RepoID := repoID; PrincipalID := principalID;
                             PRef := Ref u; SHA := New u |}
             else if (New u =? NilSHA)%string then
               TagDeleted {| RepoID := repoID; PrincipalID := principalID;
                             PRef := Ref u; SHA := Old u |}
             else
               TagUpdated {| URepoID := repoID; UPrincipalID := principalID;
                             URef := Ref u; OldSHA := Old u; NewSHA := New u;
                             Forced := true |} ])).
Proof.
  unfold reportReferenceEvents.
  destruct (reportReferenceEvents_loop_run repoID principalID (RefUpdates input))
    as (t & -> & Hk & _).
  repeat split; try exact Hk; intros u.
  - unfold reportBranchEvent, call.
    destruct (Old u =? NilSHA)%string; [|destruct (New u =? NilSHA)%string];
      reflexivity.
  - unfold reportTagEvent, call.
    destruct (Old u =? NilSHA)%string; [|destruct (New u =? NilSHA)%string];
      reflexivity.
Qed.

(** ** Pull-request messaging *)

Section Messaging.

Context {Session : Type} (c : Controller Session).

(** The loop that fills the message slice stays in range and writes the two
    lines of each pull request, in order, after what is already written. *)
Lemma fill_msgs_run (repo : Repository) (prs : list PullReq) :
  forall (i : nat) (pre : list string),
    length pre = 2 * i + 1 ->
    fill_msgs c repo prs i (pre ++ make_strings (2 * length prs))
    = Some (pre ++ flat_map (spec_pr_lines (GenerateUIPRURL c (Path repo))) prs).
Proof.
  unfold make_strings.
  induction prs as [|pr rest IH]; intros i pre Hlen.
  - reflexivity.
  - replace (2 * length (pr :: rest)) with (S (S (2 * length rest)))
      by (cbn [length]; lia).
    cbn [fill_msgs repeat flat_map].
    rewrite <- Hlen, slice_set_app.
    replace (2 * i + 2)
      with (length (pre ++ [("  (#" ++ fmt_d (Number pr) ++ ") " ++ Title pr)%string]))
      by (rewrite length_app; cbn [length]; lia).
    change (pre ++ ?v :: ?x :: ?tl) with (pre ++ [v] ++ x :: tl).
    rewrite app_assoc, slice_set_app.
    rewrite <- app_assoc. cbn [app].
    change (pre ++ ?v :: ?w :: ?tl) with (pre ++ [v; w] ++ tl).
    rewrite app_assoc, IH.
    + rewrite <- app_assoc. reflexivity.
    + rewrite length_app. cbn [length]. lia.
Qed.

Lemma make_strings_set_head (n : nat) (h : string) :
  slice_set (make_strings (2 * n + 1)) 0 h = Some ([h] ++ make_strings (2 * n)).
Proof.
  replace (2 * n + 1) with (S (2 * n)) by lia. reflexivity.
Qed.

(** What the messaging does on a push of one update to a branch that is
    not deleted: one lookup, then by its answer a warning, the block of
    open pull requests, or the block suggesting a new one. *)
Lemma handlePRMessaging_single (repo : Repository) (input : PostReceiveInput)
    (out : Output) (u : ReferenceUpdate) (branch : string) :
  RefUpdates input = [u] ->
  Ref u = (gitReferenceNamePrefixBranch ++ branch)%string ->
  (New u =? NilSHA)%string = false ->
  handlePRMessaging c repo input out
  = match pullreqStore_List c (spec_filter repo branch) with
    | Err err =>
        (Some out,
         [PullReqList (spec_filter repo branch); lookup_warning repo branch err])
    | Ok [] =>
        (Some {| Messages := Messages out ++
                   spec_create_block
                     (GenerateUICompareURL c (Path repo) (DefaultBranch repo) branch)
                     branch |},
         [PullReqList (spec_filter repo branch)])
    | Ok prs =>
        (Some {| Messages := Messages out ++
                   spec_open_block (GenerateUIPRURL c (Path repo)) branch prs |},
         [PullReqList (spec_filter repo branch)])
    end.
Proof.
  intros Hus Href Hnew. unfold handlePRMessaging.
  rewrite Hus. cbn [length Nat.eqb negb index nth_error].
  rewrite !bind_lift_some, Href, HasPrefix_append. cbn [negb].
  rewrite Hnew, slice_from_append, bind_lift_some.
  fold (spec_filter repo branch).
  destruct (pullreqStore_List c (spec_filter repo branch)) as [prs|err].
  - destruct prs as [|pr prs].
    + reflexivity.
    + replace (0 <? length (pr :: prs))%nat with true by reflexivity.
      cbv iota.
      rewrite make_strings_set_head, bind_lift_some.
      rewrite (fill_msgs_run repo (pr :: prs) 0) by reflexivity.
      rewrite bind_lift_some. reflexivity.
  - reflexivity.
Qed.

(** Any other push leaves the output as it is and makes no call. *)
Lemma handlePRMessaging_skip (repo : Repository) (input : PostReceiveInput)
    (out : Output) :
  spec_pr_messaging_applies input = false ->
  handlePRMessaging c repo input out = (Some out, []).
Proof.
  unfold spec_pr_messaging_applies, handlePRMessaging.
  destruct (RefUpdates input) as [|u [|u' us]]; try reflexivity.
  cbn [length Nat.eqb negb index nth_error]. rewrite !bind_lift_some.
  destruct (HasPrefix (Ref u) gitReferenceNamePrefixBranch); [|reflexivity].
  cbn [negb andb].
  destruct (New u =? NilSHA)%string; [reflexivity | discriminate].
Qed.

(** A push the messaging applies to is a single update of a branch. *)
Lemma spec_pr_messaging_applies_inv (input : PostReceiveInput) :
  spec_pr_messaging_applies input = true ->
  exists u branch,
    RefUpdates input = [u]
    /\ Ref u = (gitReferenceNamePrefixBranch ++ branch)%string
    /\ (New u =? NilSHA)%string = false.
Proof.
  unfold spec_pr_messaging_applies.
  destruct (RefUpdates input) as [|u [|u' us]]; try discriminate.
  intros H. apply andb_true_iff in H as [Hp Hn].
  destruct (HasPrefix_split _ _ Hp) as [branch Hb].
  exists u, branch. repeat split; [exact Hb|].
  destruct (New u =? NilSHA)%string; [discriminate | reflexivity].
Qed.

(** The messaging never panics, makes at most one lookup, and its calls are
    lookups and warnings only. *)
Lemma handlePRMessaging_total (repo : Repository) (input : PostReceiveInput)
    (out : Output) :
  exists out' t,
    handlePRMessaging c repo input out = (Some out', t)
    /\ forallb (fun cl => negb (is_event cl)) t = true
    /\ existsb is_lookup t = spec_pr_messaging_applies input.
Proof.
  destruct (spec_pr_messaging_applies input) eqn:E.
  - destruct (spec_pr_messaging_applies_inv input E) as (u & branch & Hus & Href & Hnew).
    rewrite (handlePRMessaging_single repo input out u branch Hus Href Hnew).
    destruct (pullreqStore_List c (spec_filter repo branch)) as [[|pr prs]|err];
      do 2 eexists; repeat split.
  - rewrite (handlePRMessaging_skip repo input out E).
    do 2 eexists; repeat split.
Qed.

(** ** The hook *)

(** With access granted the hook reports the events, then runs the
    messaging on an empty output, and succeeds with what it leaves. *)
Lemma PostReceive_granted (session : Session) (repoID principalID : Z)
    (input : PostReceiveInput) (repo : Repository) :
  getRepoCheckAccess c session repoID PermissionRepoEdit = Ok repo ->
  exists out,
    value (handlePRMessaging c repo input {| Messages := [] |}) = Some out
    /\ PostReceive c session repoID principalID (Some input)
       = (Some (Ok out),
          trace (reportReferenceEvents repoID principalID input)
            ++ trace (handlePRMessaging c repo input {| Messages := [] |})).
Proof.
  intros Hacc. unfold PostReceive. rewrite Hacc.
  unfold reportReferenceEvents.
  destruct (reportReferenceEvents_loop_run repoID principalID (RefUpdates input))
    as (t & Hrun & _).
  destruct (handlePRMessaging_total repo input {| Messages := [] |})
    as (out & t' & Hpr & _).
  exists out. rewrite Hrun, Hpr. split; [reflexivity|].
  cbn [bind ret trace snd]. rewrite app_nil_r. reflexivity.
Qed.

(** No index or slice operation of the hook goes out of range, whatever its
    collaborators answer. *)
Lemma PostReceive_no_panic (session : Session) (repoID principalID : Z)
    (input : option PostReceiveInput) :
  exists r, value (PostReceive c session repoID principalID input) = Some r.
Proof.
  destruct input as [input|]; [|eexists; reflexivity].
  destruct (getRepoCheckAccess c session repoID PermissionRepoEdit) as [repo|err] eqn:E.
  - destruct (PostReceive_granted session repoID principalID input repo E)
      as (out & _ & ->).
    eexists; reflexivity.
  - unfold PostReceive. rewrite E. eexists; reflexivity.
Qed.

(** With access granted, the output of the hook is what the messaging makes
    of the empty output. *)
Lemma PostReceive_messages (session : Session) (repoID principalID : Z)
    (input : PostReceiveInput) (repo : Repository) (out : Output)
    (t : list Call) :
  getRepoCheckAccess c session repoID PermissionRepoEdit = Ok repo ->
  handlePRMessaging c repo input {| Messages := [] |} = (Some out, t) ->
  value (PostReceive c session repoID principalID (Some input))
  = Some (Ok out).
Proof.
  intros Hacc Hrun.
  destruct (PostReceive_granted session repoID principalID input repo Hacc)
    as (o & Ho & ->).
  rewrite Hrun in Ho. cbn [value fst] in *. injection Ho as <-. reflexivity.
Qed.

End Messaging.

(** ** Auxiliary facts *)

Lemma not_event_forced_ok (cl : Call) :
  negb (is_event cl) = true -> forced_ok cl = true.
Proof. destruct cl; simpl; auto; discriminate. Qed.

Lemma forallb_impl {A} (p q : A -> bool) (l : list A) :
  (forall a, p a = true -> q a = true) ->
  forallb p l = true -> forallb q l = true.
Proof.
  intros Hpq H. apply forallb_forall. intros a Ha.
  apply Hpq. revert a Ha. apply forallb_forall. exact H.
Qed.

Lemma spec_open_block_length (prURL : Z -> string) (branch : string)
    (prs : list PullReq) :
  length (spec_open_block prURL branch prs) = 2 * length prs + 1.
Proof.
  unfold spec_open_block. cbn [length].
  induction prs as [|pr prs IH]; [reflexivity|].
  cbn [flat_map spec_pr_lines app length] in *.  lia.
Qed.

Lemma eqb_NilSHA_false (s : string) : s <> NilSHA -> (s =? NilSHA)%string = false.
Proof. apply String.eqb_neq. Qed.

(** ** Properties of the hook *)

(** C2: the pull-request lookup of the messaging is made if and only if the
    push holds exactly one update, its reference has the prefix
    refs/heads/, and its new SHA is not NilSHA; on any other push the
    messaging makes no call and leaves the output as it is, so the hook
    returns no message. *)
Theorem C2_pr_messaging_condition {Session : Type} (c : Controller Session)
    (repo : Repository) (input : PostReceiveInput) (out : Output) :
  (existsb is_lookup (trace (handlePRMessaging c repo input out)) = true
   <-> exists u,
         RefUpdates input = [u]
         /\ HasPrefix (Ref u) gitReferenceNamePrefixBranch = true
         /\ New u <> NilSHA)
  /\ ((~ exists u,
         RefUpdates input = [u]
         /\ HasPrefix (Ref u) gitReferenceNamePrefixBranch = true
         /\ New u <> NilSHA) ->
      handlePRMessaging c repo input out = (Some out, [])
      /\ forall session repoID principalID,
           getRepoCheckAccess c session repoID PermissionRepoEdit = Ok repo ->
           value (PostReceive c session repoID principalID (Some input))
           = Some (Ok {| Messages := [] |})).
Proof.
  assert (Happ : spec_pr_messaging_applies input = true
                 <-> exists u,
                       RefUpdates input = [u]
                       /\ HasPrefix (Ref u) gitReferenceNamePrefixBranch = true
                       /\ New u <> NilSHA).
  { unfold spec_pr_messaging_applies. split.
    - destruct (RefUpdates input) as [|u [|u' us]]; try discriminate.
      intros H. apply andb_true_iff in H as [Hp Hn]. exists u.
      repeat split; [exact Hp|]. intros E. rewrite E in Hn. discriminate Hn.
    - intros (u & -> & Hp & Hn). rewrite Hp, (eqb_NilSHA_false _ Hn). reflexivity. }
  destruct (handlePRMessaging_total c repo input out) as (out' & t & Hrun & _ & Hlook).
  split.
  - rewrite Hrun. cbn [trace snd]. rewrite Hlook. exact Happ.
  - intros Hno.
    assert (E : spec_pr_messaging_applies input = false).
    { destruct (spec_pr_messaging_applies input); [|reflexivity].
      exfalso. apply Hno, Happ. reflexivity. }
    split; [apply handlePRMessaging_skip, E|].
    intros session repoID principalID Hacc.
    destruct (PostReceive_granted c session repoID principalID input repo Hacc)
      as (o & Ho & ->).
    rewrite (handlePRMessaging_skip c repo input _ E) in Ho.
    cbn [value fst] in *. injection Ho as <-. reflexivity.
Qed.

(** C2 on a push that deletes its single branch: nothing is looked up and
    the messages already in the output stay as they are. *)
Lemma C2_witness :
  handlePRMessaging (exampleController exampleDB) exampleRepo
    (pushOf "refs/heads/feature" sha_abc NilSHA) {| Messages := ["kept"] |}
  = (Some {| Messages := ["kept"] |}, []).
Proof.
  apply (proj2 (C2_pr_messaging_condition (exampleController exampleDB)
                  exampleRepo (pushOf "refs/heads/feature" sha_abc NilSHA)
                  {| Messages := ["kept"] |})).
  intros (u & Hus & _ & Hnew). injection Hus as <-. apply Hnew. reflexivity.
Defined.

(** C3, as stated, fails: a push whose input is not nil is answered with an
    error when the access check of the repository refuses it. *)
Lemma C3_counterexample :
  PostReceive deniedController tt 7 3
    (Some (pushOf "refs/heads/feature" NilSHA sha_abc))
  = (Some (Err "forbidden"), [])
  /\ Some (pushOf "refs/heads/feature" NilSHA sha_abc) <> None.
Proof. split; [reflexivity | discriminate]. Qed.

(** C3, amended: the hook never panics and returns an error if and only if
    its input is nil or the access check of the repository fails; an error
    is returned before any call to the reporter or the store is made.  For
    a non-nil input with access granted the hook succeeds whatever the
    store answers. *)
Theorem C3_error_iff_nil_or_denied {Session : Type} (c : Controller Session)
    (session : Session) (repoID principalID : Z)
    (input : option PostReceiveInput) :
  exists r,
    value (PostReceive c session repoID principalID input) = Some r
    /\ (is_err r = true
        <-> input = None
            \/ is_err (getRepoCheckAccess c session repoID PermissionRepoEdit)
               = true)
    /\ (is_err r = true ->
        trace (PostReceive c session repoID principalID input) = []).
Proof.
  destruct input as [input|].
  - destruct (getRepoCheckAccess c session repoID PermissionRepoEdit)
      as [repo|err] eqn:E.
    + destruct (PostReceive_granted c session repoID principalID input repo E)
        as (out & _ & ->).
      exists (Ok out). cbn [value fst is_err]. repeat split.
      * discriminate.
      * intros [H|H]; discriminate H.
      * discriminate.
    + unfold PostReceive. rewrite E. exists (Err err).
      cbn [value fst is_err]. repeat split. right. reflexivity.
  - exists (Err "input is nil"). cbn. repeat split. left. reflexivity.
Qed.

(** C4: every TagUpdated event of the hook carries Forced = true and every
    BranchUpdated event carries Forced = false; an update that neither
    creates nor deletes its reference is reported as BranchUpdated with
    Forced = false on a branch and as TagUpdated with Forced = true on a
    tag. *)
Theorem C4_forced_flags {Session : Type} (c : Controller Session)
    (session : Session) (repoID principalID : Z)
    (input : option PostReceiveInput) :
  forallb forced_ok (trace (PostReceive c session repoID principalID input))
  = true
  /\ forall u,
       Old u <> NilSHA -> New u <> NilSHA ->
       reportBranchEvent repoID principalID u
       = (Some tt,
          [BranchUpdated {| URepoID := repoID; UPrincipalID := principalID;
                            URef := Ref u; OldSHA := Old u; NewSHA := New u;
                            Forced := false |}])
       /\ reportTagEvent repoID principalID u
          = (Some tt,
             [TagUpdated {| URepoID := repoID; UPrincipalID := principalID;
                            URef := Ref u; OldSHA := Old u; NewSHA := New u;
                            Forced := true |}]).
Proof.
  split.
  - destruct input as [input|]; [|reflexivity].
    destruct (getRepoCheckAccess c session repoID PermissionRepoEdit)
      as [repo|err] eqn:E.
    + destruct (PostReceive_granted c session repoID principalID input repo E)
        as (out & _ & ->).
      cbn [trace snd]. rewrite forallb_app. apply andb_true_iff. split.
      * unfold reportReferenceEvents.
        destruct (reportReferenceEvents_loop_run repoID principalID
                    (RefUpdates input)) as (t & -> & _ & Hf).
        exact Hf.
      * destruct (handlePRMessaging_total c repo input {| Messages := [] |})
          as (o & t & -> & Hne & _).
        exact (forallb_impl _ _ t not_event_forced_ok Hne).
    + unfold PostReceive. rewrite E. reflexivity.
  - intros u Ho Hn. unfold reportBranchEvent, reportTagEvent.
    rewrite (eqb_NilSHA_false _ Ho), (eqb_NilSHA_false _ Hn). split; reflexivity.
Qed.

(** C4 on an update of refs/tags/v1.0 from one commit to another. *)
Lemma C4_witness :
  reportTagEvent 7 3 {| Ref := "refs/tags/v1.0"; Old := sha_abc; New := sha_def |}
  = (Some tt,
     [TagUpdated {| URepoID := 7; UPrincipalID := 3; URef := "refs/tags/v1.0";
                    OldSHA := sha_abc; NewSHA := sha_def; Forced := true |}]).
Proof.
  apply (proj2 (C4_forced_flags deniedController tt 7 3 None)
           {| Ref := "refs/tags/v1.0"; Old := sha_abc; New := sha_def |});
    discriminate.
Defined.

(** C5: on a push of exactly one update, of a branch to a SHA that is not
    NilSHA, with no open pull request found for the branch, the messaging
    makes its lookup and appends exactly two messages: "Create a new PR for
    branch '<branch>'", then two spaces followed by the compare URL from
    the default branch to the branch; they are the messages of the hook
    output. *)
Theorem C5_create_pr_block {Session : Type} (c : Controller Session)
    (input : PostReceiveInput) (repo : Repository) (out : Output)
    (u : ReferenceUpdate) (branch : string) :
  RefUpdates input = [u] ->
  Ref u = (gitReferenceNamePrefixBranch ++ branch)%string ->
  New u <> NilSHA ->
  pullreqStore_List c (spec_filter repo branch) = Ok [] ->
  let block :=
    [ ("Create a new PR for branch '" ++ branch ++ "'")%string;
      ("  " ++ GenerateUICompareURL c (Path repo) (DefaultBranch repo) branch)%string ]
  in
  handlePRMessaging c repo input out
  = (Some {| Messages := Messages out ++ block |},
     [PullReqList (spec_filter repo branch)])
  /\ forall session repoID principalID,
       getRepoCheckAccess c session repoID PermissionRepoEdit = Ok repo ->
       value (PostReceive c session repoID principalID (Some input))
       = Some (Ok {| Messages := block |}).
Proof.
  intros Hus Href Hnew Hprs block.
  assert (Hrun : forall o,
            handlePRMessaging c repo input o
            = (Some {| Messages := Messages o ++ block |},
               [PullReqList (spec_filter repo branch)])).
  { intros o.
    rewrite (handlePRMessaging_single c repo input o u branch Hus Href
               (eqb_NilSHA_false _ Hnew)), Hprs.
    reflexivity. }
  split; [apply Hrun|].
  intros session repoID principalID Hacc.
  apply (PostReceive_messages c session repoID principalID input repo _ _
           Hacc (Hrun _)).
Qed.

(** C5 on the push of refs/heads/feature from NilSHA to a commit, with no
    pull request in the store. *)
Lemma C5_witness :
  value (PostReceive (exampleController []) tt 7 3
           (Some (pushOf "refs/heads/feature" NilSHA sha_abc)))
  = Some (Ok {| Messages :=
       [ "Create a new PR for branch 'feature'";
         "  https://git.example/acme/widgets/pulls/compare/main...feature" ] |}).
Proof.
  refine (proj2 (C5_create_pr_block (exampleController [])
                   (pushOf "refs/heads/feature" NilSHA sha_abc) exampleRepo
                   {| Messages := [] |}
                   {| Ref := "refs/heads/feature"; Old := NilSHA; New := sha_abc |}
                   "feature" _ _ _ _) tt 7%Z 3%Z _).
  - reflexivity.
  - reflexivity.
  - discriminate.
  - reflexivity.
  - reflexivity.
Defined.

(** C6: on a push of exactly one update, of a branch to a SHA that is not
    NilSHA, for which the lookup finds the open pull requests [prs] (at
    least one), the messaging appends exactly the header "Branch '<branch>'
    has open PRs:" followed, for each pull request in the order of [prs],
    by the line "  (#<number>) <title>" and the line of four spaces and the
    UI URL of the pull request: 2*N+1 messages for N pull requests; they
    are the messages of the hook output. *)
Theorem C6_open_prs_block {Session : Type} (c : Controller Session)
    (input : PostReceiveInput) (repo : Repository) (out : Output)
    (u : ReferenceUpdate) (branch : string) (prs : list PullReq) :
  RefUpdates input = [u] ->
  Ref u = (gitReferenceNamePrefixBranch ++ branch)%string ->
  New u <> NilSHA ->
  pullreqStore_List c (spec_filter repo branch) = Ok prs ->
  prs <> [] ->
  let block :=
    ("Branch '" ++ branch ++ "' has open PRs:")%string
      :: flat_map
           (fun pr =>
              [ ("  (#" ++ fmt_d (Number pr) ++ ") " ++ Title pr)%string;
                ("    " ++ GenerateUIPRURL c (Path repo) (Number pr))%string ])
           prs
  in
  handlePRMessaging c repo input out
  = (Some {| Messages := Messages out ++ block |},
     [PullReqList (spec_filter repo branch)])
  /\ length block = 2 * length prs + 1
  /\ forall session repoID principalID,
       getRepoCheckAccess c session repoID PermissionRepoEdit = Ok repo ->
       value (PostReceive c session repoID principalID (Some input))
       = Some (Ok {| Messages := block |}).
Proof.
  intros Hus Href Hnew Hprs Hne block.
  assert (Hrun : forall o,
            handlePRMessaging c repo input o
            = (Some {| Messages := Messages o ++ block |},
               [PullReqList (spec_filter repo branch)])).
  { intros o.
    rewrite (handlePRMessaging_single c repo input o u branch Hus Href
               (eqb_NilSHA_false _ Hnew)), Hprs.
    destruct prs as [|pr prs]; [contradiction | reflexivity]. }
  split; [apply Hrun|]. split.
  - apply (spec_open_block_length (GenerateUIPRURL c (Path repo)) branch prs).
  - intros session repoID principalID Hacc.
    apply (PostReceive_messages c session repoID principalID input repo _ _
             Hacc (Hrun _)).
Qed.

(** C6 on the push of refs/heads/feature with the single open pull request
    #42 titled "Add X". *)
Lemma C6_witness :
  value (PostReceive
           (exampleController
              [ {| RowPR := {| Number := 42; Title := "Add X" |};
                   RowSourceRepoID := 7; RowSourceBranch := "feature";
                   RowState := PullReqStateOpen; RowCreated := 100 |} ])
           tt 7 3 (Some (pushOf "refs/heads/feature" NilSHA sha_abc)))
  = Some (Ok {| Messages :=
       [ "Branch 'feature' has open PRs:";
         "  (#42) Add X";
         "    https://git.example/acme/widgets/pulls/42" ] |}).
Proof.
  refine (proj2 (proj2 (C6_open_prs_block
            (exampleController
               [ {| RowPR := {| Number := 42; Title := "Add X" |};
                    RowSourceRepoID := 7; RowSourceBranch := "feature";
                    RowState := PullReqStateOpen; RowCreated := 100 |} ])
            (pushOf "refs/heads/feature" NilSHA sha_abc) exampleRepo
            {| Messages := [] |}
            {| Ref := "refs/heads/feature"; Old := NilSHA; New := sha_abc |}
            "feature" [ {| Number := 42; Title := "Add X" |} ] _ _ _ _ _))
          tt 7%Z 3%Z _).
  - reflexivity.
  - reflexivity.
  - discriminate.
  - reflexivity.
  - discriminate.
  - reflexivity.
Defined.

(** C7, as stated, fails: a push whose single update has a reference with
    the prefix refs/tags/ and a new SHA equal to NilSHA is reported as
    TagCreated, not TagDeleted, when its old SHA is NilSHA too. *)
Lemma C7_counterexample :
  HasPrefix "refs/tags/v1.0" gitReferenceNamePrefixTag = true
  /\ New {| Ref := "refs/tags/v1.0"; Old := NilSHA; New := NilSHA |} = NilSHA
  /\ PostReceive (exampleController exampleDB) tt 7 3
       (Some {| RefUpdates :=
          [ {| Ref := "refs/tags/v1.0"; Old := NilSHA; New := NilSHA |} ] |})
     = (Some (Ok {| Messages := [] |}),
        [ TagCreated {| RepoID := 7; PrincipalID := 3;
                        PRef := "refs/tags/v1.0"; SHA := NilSHA |} ]).
Proof. repeat split. Qed.

(** C7, amended: on a push whose single update has a reference with the
    prefix refs/tags/, a new SHA equal to NilSHA and an old SHA that is not
    NilSHA, the reporting dispatches exactly one event, TagDeleted with the
    old SHA of the update as its SHA; the messaging makes no lookup and
    leaves the output as it is, and these are all the calls of the hook,
    whose output has no message. *)
Theorem C7_tag_deleted {Session : Type} (c : Controller Session)
    (input : PostReceiveInput) (repo : Repository) (out : Output)
    (repoID principalID : Z) (u : ReferenceUpdate) :
  RefUpdates input = [u] ->
  HasPrefix (Ref u) gitReferenceNamePrefixTag = true ->
  New u = NilSHA ->
  Old u <> NilSHA ->
  let deleted :=
    TagDeleted {| RepoID := repoID; PrincipalID := principalID;
                  PRef := Ref u; SHA := Old u |}
  in
  reportReferenceEvents repoID principalID input = (Some tt, [deleted])
  /\ handlePRMessaging c repo input out = (Some out, [])
  /\ forall session,
       getRepoCheckAccess c session repoID PermissionRepoEdit = Ok repo ->
       PostReceive c session repoID principalID (Some input)
       = (Some (Ok {| Messages := [] |}), [deleted]).
Proof.
  intros Hus Htag Hnew Hold deleted.
  assert (E : spec_pr_messaging_applies input = false).
  { unfold spec_pr_messaging_applies.
    rewrite Hus, (tag_prefix_not_branch _ Htag). reflexivity. }
  assert (Hev : reportReferenceEvents repoID principalID input
                = (Some tt, [deleted])).
  { unfold reportReferenceEvents. rewrite Hus.
    cbn [reportReferenceEvents_loop]. unfold reportReferenceEvent.
    rewrite (tag_prefix_not_branch _ Htag), Htag.
    unfold reportTagEvent. rewrite (eqb_NilSHA_false _ Hold), Hnew.
    reflexivity. }
  split; [exact Hev|]. split; [apply handlePRMessaging_skip, E|].
  intros session Hacc.
  destruct (PostReceive_granted c session repoID principalID input repo Hacc)
    as (o & Ho & ->).
  rewrite (handlePRMessaging_skip c repo input _ E) in *.
  cbn [value fst] in Ho. injection Ho as <-.
  rewrite Hev. reflexivity.
Qed.

(** C7 on the deletion of refs/tags/v1.0. *)
Lemma C7_witness :
  PostReceive (exampleController exampleDB) tt 7 3
    (Some (pushOf "refs/tags/v1.0" sha_abc NilSHA))
  = (Some (Ok {| Messages := [] |}),
     [ TagDeleted {| RepoID := 7; PrincipalID := 3;
                     PRef := "refs/tags/v1.0"; SHA := sha_abc |} ]).
Proof.
  refine (proj2 (proj2 (C7_tag_deleted (exampleController exampleDB)
            (pushOf "refs/tags/v1.0" sha_abc NilSHA) exampleRepo
            {| Messages := [] |} 7 3
            {| Ref := "refs/tags/v1.0"; Old := sha_abc; New := NilSHA |}
            _ _ _ _)) tt _).
  - reflexivity.
  - reflexivity.
  - reflexivity.
  - discriminate.
  - reflexivity.
Defined.

(** C8: when the lookup of the messaging fails, the hook logs a warning
    and goes on: the messaging hands the output back with its messages
    unchanged, nothing follows the warning, and the hook call succeeds with
    no message. *)
Theorem C8_lookup_failure {Session : Type} (c : Controller Session)
    (input : PostReceiveInput) (repo : Repository) (out : Output)
    (u : ReferenceUpdate) (branch : string) (err : error) :
  RefUpdates input = [u] ->
  Ref u = (gitReferenceNamePrefixBranch ++ branch)%string ->
  New u <> NilSHA ->
  pullreqStore_List c (spec_filter repo branch) = Err err ->
  handlePRMessaging c repo input out
  = (Some out,
     [ PullReqList (spec_filter repo branch);
       LogWarn err
         ("failed to find pullrequests for branch '" ++ branch
            ++ "' originating from repo '" ++ Path repo ++ "'")%string ])
  /\ forall session repoID principalID,
       getRepoCheckAccess c session repoID PermissionRepoEdit = Ok repo ->
       value (PostReceive c session repoID principalID (Some input))
       = Some (Ok {| Messages := [] |}).
Proof.
  intros Hus Href Hnew Herr.
  assert (Hrun : forall o,
            handlePRMessaging c repo input o
            = (Some o, [ PullReqList (spec_filter repo branch);
                         lookup_warning repo branch err ])).
  { intros o.
    rewrite (handlePRMessaging_single c repo input o u branch Hus Href
               (eqb_NilSHA_false _ Hnew)), Herr.
    reflexivity. }
  split; [apply Hrun|].
  intros session repoID principalID Hacc.
  apply (PostReceive_messages c session repoID principalID input repo _ _
           Hacc (Hrun _)).
Qed.

(** C8 on the push of refs/heads/feature against a store that fails. *)
Lemma C8_witness :
  handlePRMessaging failingStoreController exampleRepo
    (pushOf "refs/heads/feature" sha_abc sha_def) {| Messages := ["kept"] |}
  = (Some {| Messages := ["kept"] |},
     [ PullReqList (spec_filter exampleRepo "feature");
       LogWarn "store unavailable"
         "failed to find pullrequests for branch 'feature' originating from repo 'acme/widgets'" ])
  /\ forall session repoID principalID,
       getRepoCheckAccess failingStoreController session repoID PermissionRepoEdit
       = Ok exampleRepo ->
       value (PostReceive failingStoreController session repoID principalID
                (Some (pushOf "refs/heads/feature" sha_abc sha_def)))
       = Some (Ok {| Messages := [] |}).
Proof.
  apply (C8_lookup_failure failingStoreController
           (pushOf "refs/heads/feature" sha_abc sha_def) exampleRepo
           {| Messages := ["kept"] |}
           {| Ref := "refs/heads/feature"; Old := sha_abc; New := sha_def |}
           "feature" "store unavailable").
  - reflexivity.
  - reflexivity.
  - discriminate.
  - reflexivity.
Defined.

(** C9: an update whose old SHA and new SHA are both NilSHA is classified
    Created, the test of the old SHA coming first: the branch reporter
    dispatches BranchCreated and the tag reporter TagCreated, each with SHA
    equal to NilSHA, and so does the reporting of a push with such an
    update on a reference with the branch or the tag prefix. *)
Theorem C9_nil_to_nil_is_created (repoID principalID : Z) (ref : string) :
  let u := {| Ref := ref; Old := NilSHA; New := NilSHA |} in
  reportBranchEvent repoID principalID u
  = (Some tt,
     [ BranchCreated {| RepoID := repoID; PrincipalID := principalID;
                        PRef := ref; SHA := NilSHA |} ])
  /\ reportTagEvent repoID principalID u
     = (Some tt,
        [ TagCreated {| RepoID := repoID; PrincipalID := principalID;
                        PRef := ref; SHA := NilSHA |} ])
  /\ (HasPrefix ref gitReferenceNamePrefixBranch = true ->
      reportReferenceEvents repoID principalID {| RefUpdates := [u] |}
      = (Some tt,
         [ BranchCreated {| RepoID := repoID; PrincipalID := principalID;
                            PRef := ref; SHA := NilSHA |} ]))
  /\ (HasPrefix ref gitReferenceNamePrefixTag = true ->
      reportReferenceEvents repoID principalID {| RefUpdates := [u] |}
      = (Some tt,
         [ TagCreated {| RepoID := repoID; PrincipalID := principalID;
                         PRef := ref; SHA := NilSHA |} ])).
Proof.
  cbv zeta. repeat split.
  - intros Hb. unfold reportReferenceEvents.
    cbn [RefUpdates reportReferenceEvents_loop]. unfold reportReferenceEvent.
    cbn [Ref]. rewrite Hb. reflexivity.
  - intros Ht. unfold reportReferenceEvents.
    cbn [RefUpdates reportReferenceEvents_loop]. unfold reportReferenceEvent.
    cbn [Ref]. rewrite (tag_prefix_not_branch _ Ht), Ht. reflexivity.
Qed.

(** C9 on refs/tags/v1.0 pushed from NilSHA to NilSHA. *)
Lemma C9_witness :
  reportReferenceEvents 7 3
    {| RefUpdates := [ {| Ref := "refs/tags/v1.0"; Old := NilSHA; New := NilSHA |} ] |}
  = (Some tt,
     [ TagCreated {| RepoID := 7; PrincipalID := 3;
                     PRef := "refs/tags/v1.0"; SHA := NilSHA |} ]).
Proof.
  apply (proj2 (proj2 (proj2 (C9_nil_to_nil_is_created 7 3 "refs/tags/v1.0")))).
  reflexivity.
Defined.




(** ** Further properties of the hook *)

Lemma not_event_ids_ok (repoID principalID : Z) (cl : Call) :
  negb (is_event cl) = true -> ids_ok repoID principalID cl = true.
Proof. destruct cl; simpl; auto; discriminate. Qed.

Lemma not_event_ref_among (refs : list string) (cl : Call) :
  negb (is_event cl) = true -> ref_among refs cl = true.
Proof. destruct cl; simpl; auto; discriminate. Qed.

Lemma not_event_sha_ok (cl : Call) :
  negb (is_event cl) = true -> sha_ok cl = true.
Proof. destruct cl; simpl; auto; discriminate. Qed.

Lemma existsb_eqb_In (r : string) (refs : list string) :
  In r refs -> existsb (String.eqb r) refs = true.
Proof.
  intros H. apply existsb_exists. exists r. split; [exact H|].
  apply String.eqb_refl.
Qed.

(** What one round of the reporting loop dispatches names the hook's
    repository and principal and the reference of its update, with SHAs
    that fit the kind of the event. *)
Lemma reportReferenceEvent_payload (repoID principalID : Z)
    (u : ReferenceUpdate) (refs : list string) :
  In (Ref u) refs ->
  let t := trace (reportReferenceEvent repoID principalID u) in
  forallb (ids_ok repoID principalID) t = true
  /\ forallb (ref_among refs) t = true
  /\ forallb sha_ok t = true
  /\ forallb is_event t = true.
Proof.
  intros Hin. cbv zeta.
  unfold reportReferenceEvent, reportBranchEvent, reportTagEvent, call.
  destruct (HasPrefix (Ref u) gitReferenceNamePrefixBranch);
    [|destruct (HasPrefix (Ref u) gitReferenceNamePrefixTag)];
    try (repeat split; reflexivity);
    (destruct (Old u =? NilSHA)%string eqn:Eo;
      [|destruct (New u =? NilSHA)%string eqn:En]);
    cbn [trace snd forallb ids_ok call_ids ref_among call_kind sha_ok
         is_event RepoID PrincipalID PRef SHA URepoID UPrincipalID URef
         OldSHA NewSHA];
    rewrite ?Z.eqb_refl, ?Eo, ?En, ?(existsb_eqb_In _ _ Hin);
    repeat split.
Qed.

Lemma reportReferenceEvents_loop_trace (repoID principalID : Z)
    (u : ReferenceUpdate) (us : list ReferenceUpdate) :
  trace (reportReferenceEvents_loop repoID principalID (u :: us))
  = trace (reportReferenceEvent repoID principalID u)
      ++ trace (reportReferenceEvents_loop repoID principalID us).
Proof.
  cbn [reportReferenceEvents_loop].
  destruct (reportReferenceEvent_run repoID principalID u) as (t & Hrun & _).
  rewrite (bind_run _ _ tt t Hrun), Hrun. reflexivity.
Qed.

Lemma reportReferenceEvents_loop_payload (repoID principalID : Z)
    (us : list ReferenceUpdate) (refs : list string) :
  incl (map Ref us) refs ->
  let t := trace (reportReferenceEvents_loop repoID principalID us) in
  forallb (ids_ok repoID principalID) t = true
  /\ forallb (ref_among refs) t = true
  /\ forallb sha_ok t = true
  /\ forallb is_event t = true.
Proof.
  cbv zeta. induction us as [|u us IH]; intros Hincl.
  - repeat split.
  - rewrite reportReferenceEvents_loop_trace, !forallb_app.
    destruct (reportReferenceEvent_payload repoID principalID u refs)
      as (H1 & H2 & H3 & H4).
    { apply Hincl. left. reflexivity. }
    destruct IH as (I1 & I2 & I3 & I4).
    { intros r Hr. apply Hincl. right. exact Hr. }
    cbv zeta in *. rewrite H1, H2, H3, H4, I1, I2, I3, I4. repeat split.
Qed.

(** A property of calls that holds of every call that is not an event and
    of every event the reporting dispatches holds of every call of the
    hook. *)
Lemma PostReceive_forallb {Session : Type} (c : Controller Session)
    (session : Session) (repoID principalID : Z)
    (input : option PostReceiveInput) (P : Call -> bool) :
  (forall cl, negb (is_event cl) = true -> P cl = true) ->
  (forall pin, input = Some pin ->
     forallb P (trace (reportReferenceEvents repoID principalID pin)) = true) ->
  forallb P (trace (PostReceive c session repoID principalID input)) = true.
Proof.
  intros Hne Hev. destruct input as [pin|]; [|reflexivity].
  destruct (getRepoCheckAccess c session repoID PermissionRepoEdit)
    as [repo|err] eqn:E.
  - destruct (PostReceive_granted c session repoID principalID pin repo E)
      as (out & _ & ->).
    cbn [trace snd]. rewrite forallb_app, (Hev pin eq_refl).
    destruct (handlePRMessaging_total c repo pin {| Messages := [] |})
      as (o & t & -> & Hnon & _).
    exact (forallb_impl _ _ t Hne Hnon).
  - unfold PostReceive. rewrite E. reflexivity.
Qed.

(** X1: no index, slice expression or slice write of the hook goes out
    of range, whatever the push and whatever repository, pull requests or
    errors its collaborators answer with: the first update is read only
    from a push of exactly one, the reference is sliced only behind its
    prefix, and the message slice is written only within its length, so
    the hook runs to its return.  The same holds of the messaging and of
    the reporting on their own. *)
Theorem X1_hook_indexing_in_range {Session : Type} (c : Controller Session)
    (session : Session) (repoID principalID : Z)
    (input : option PostReceiveInput) (repo : Repository)
    (pin : PostReceiveInput) (out : Output) :
  (exists r, value (PostReceive c session repoID principalID input) = Some r)
  /\ (exists o, value (handlePRMessaging c repo pin out) = Some o)
  /\ value (reportReferenceEvents repoID principalID pin) = Some tt.
Proof.
  split; [apply PostReceive_no_panic|]. split.
  - destruct (handlePRMessaging_total c repo pin out) as (o & t & -> & _).
    exists o. reflexivity.
  - unfold reportReferenceEvents.
    destruct (reportReferenceEvents_loop_run repoID principalID (RefUpdates pin))
      as (t & -> & _).
    reflexivity.
Qed.

(** X2: every event the hook dispatches names the repository and the
    principal the hook was called with, and the reference of one of the
    updates of the push. *)
Theorem X2_events_name_hook_ids_and_pushed_refs {Session : Type}
    (c : Controller Session) (session : Session) (repoID principalID : Z)
    (pin : PostReceiveInput) :
  forallb (ids_ok repoID principalID)
    (trace (PostReceive c session repoID principalID (Some pin))) = true
  /\ forallb (ref_among (map Ref (RefUpdates pin)))
       (trace (PostReceive c session repoID principalID (Some pin))) = true.
Proof.
  destruct (reportReferenceEvents_loop_payload repoID principalID
              (RefUpdates pin) (map Ref (RefUpdates pin)) (incl_refl _))
    as (H1 & H2 & _).
  split; apply PostReceive_forallb.
  - apply not_event_ids_ok.
  - intros p [= <-]. exact H1.
  - apply not_event_ref_among.
  - intros p [= <-]. exact H2.
Qed.

(** X3: no deleted event of the hook carries NilSHA as its SHA, and no
    updated event carries NilSHA as its old or as its new SHA. *)
Theorem X3_event_shas_fit_kind {Session : Type} (c : Controller Session)
    (session : Session) (repoID principalID : Z)
    (input : option PostReceiveInput) :
  forallb sha_ok (trace (PostReceive c session repoID principalID input))
  = true.
Proof.
  apply PostReceive_forallb.
  - apply not_event_sha_ok.
  - intros pin _.
    destruct (reportReferenceEvents_loop_payload repoID principalID
                (RefUpdates pin) (map Ref (RefUpdates pin)) (incl_refl _))
      as (_ & _ & H3 & _).
    exact H3.
Qed.

Lemma reportReferenceEvents_loop_other (repoID principalID : Z)
    (us : list ReferenceUpdate) :
  forallb other_ref us = true ->
  reportReferenceEvents_loop repoID principalID us = (Some tt, []).
Proof.
  induction us as [|u us IH]; [reflexivity|].
  cbn [forallb]. intros H. apply andb_true_iff in H as [Hu Hus].
  unfold other_ref in Hu. apply andb_true_iff in Hu as [Hb Ht].
  apply negb_true_iff in Hb, Ht.
  cbn [reportReferenceEvents_loop]. unfold reportReferenceEvent.
  rewrite Hb, Ht, bind_ret. exact (IH Hus).
Qed.

Lemma other_refs_no_messaging (input : PostReceiveInput) :
  forallb other_ref (RefUpdates input) = true ->
  spec_pr_messaging_applies input = false.
Proof.
  unfold spec_pr_messaging_applies.
  destruct (RefUpdates input) as [|u [|u' us]]; try reflexivity.
  cbn [forallb]. rewrite andb_true_r. unfold other_ref. intros H.
  apply andb_true_iff in H as [Hb _]. apply negb_true_iff in Hb.
  rewrite Hb. reflexivity.
Qed.

(** X4: a push none of whose references is a branch or a tag, the empty
    push among them, is passed over in silence: the reporting dispatches
    nothing, the messaging looks nothing up and leaves the output as it
    is, and with access granted the hook succeeds with no message and no
    call. *)
Theorem X4_other_refs_are_silent {Session : Type} (c : Controller Session)
    (repoID principalID : Z) (pin : PostReceiveInput) (repo : Repository)
    (out : Output) :
  forallb other_ref (RefUpdates pin) = true ->
  reportReferenceEvents repoID principalID pin = (Some tt, [])
  /\ handlePRMessaging c repo pin out = (Some out, [])
  /\ forall session,
       getRepoCheckAccess c session repoID PermissionRepoEdit = Ok repo ->
       PostReceive c session repoID principalID (Some pin)
       = (Some (Ok {| Messages := [] |}), []).
Proof.
  intros H.
  pose proof (reportReferenceEvents_loop_other repoID principalID _ H) as Hev.
  pose proof (other_refs_no_messaging pin H) as Hno.
  split; [exact Hev|]. split; [apply handlePRMessaging_skip, Hno|].
  intros session Hacc.
  destruct (PostReceive_granted c session repoID principalID pin repo Hacc)
    as (o & Ho & ->).
  rewrite (handlePRMessaging_skip c repo pin _ Hno) in *.
  cbn [value fst] in Ho. injection Ho as <-.
  unfold reportReferenceEvents. rewrite Hev. reflexivity.
Qed.

(** X4 on a push of a notes reference and a pull reference. *)
Lemma X4_witness :
  PostReceive (exampleController exampleDB) tt 7 3
    (Some {| RefUpdates :=
       [ {| Ref := "refs/notes/commits"; Old := NilSHA; New := sha_abc |};
         {| Ref := "refs/pull/1/head"; Old := sha_abc; New := sha_def |} ] |})
  = (Some (Ok {| Messages := [] |}), []).
Proof.
  refine (proj2 (proj2 (X4_other_refs_are_silent (exampleController exampleDB)
            7 3
            {| RefUpdates :=
                [ {| Ref := "refs/notes/commits"; Old := NilSHA; New := sha_abc |};
                  {| Ref := "refs/pull/1/head"; Old := sha_abc; New := sha_def |} ] |}
            exampleRepo {| Messages := [] |} _)) tt _).
  - reflexivity.
  - reflexivity.
Defined.

Lemma spec_open_block_nonempty (prURL : Z -> string) (branch : string)
    (prs : list PullReq) :
  Forall (fun m => m <> EmptyString) (spec_open_block prURL branch prs).
Proof.
  unfold spec_open_block. constructor; [discriminate|].
  induction prs as [|pr prs IH]; [constructor|].
  cbn [flat_map spec_pr_lines app].
  constructor; [discriminate|]. constructor; [discriminate | exact IH].
Qed.

(** The three ways the messaging ends: passed over, lookup failed, lookup
    answered. *)
Lemma handlePRMessaging_cases {Session : Type} (c : Controller Session)
    (repo : Repository) (input : PostReceiveInput) (out : Output) :
  handlePRMessaging c repo input out = (Some out, [])
  \/ (exists f err msg,
        handlePRMessaging c repo input out
        = (Some out, [PullReqList f; LogWarn err msg]))
  \/ (exists f block,
        handlePRMessaging c repo input out
        = (Some {| Messages := Messages out ++ block |}, [PullReqList f])
        /\ Forall (fun m => m <> EmptyString) block
        /\ (length block = 2
            \/ exists n, 1 <= n /\ length block = 2 * n + 1)).
Proof.
  destruct (spec_pr_messaging_applies input) eqn:E.
  - destruct (spec_pr_messaging_applies_inv input E)
      as (u & branch & Hus & Href & Hnew).
    rewrite (handlePRMessaging_single c repo input out u branch Hus Href Hnew).
    destruct (pullreqStore_List c (spec_filter repo branch)) as [[|pr prs]|err].
    + right. right. do 2 eexists. split; [reflexivity|]. split.
      * unfold spec_create_block.
        constructor; [discriminate|]. constructor; [discriminate|constructor].
      * left. reflexivity.
    + right. right. do 2 eexists. split; [reflexivity|]. split.
      * apply spec_open_block_nonempty.
      * right. exists (length (pr :: prs)).
        split; [cbn [length]; lia | apply spec_open_block_length].
    + right. left. do 3 eexists. reflexivity.
  - left. apply handlePRMessaging_skip, E.
Qed.

(** X5: the messaging only ever appends: the messages already in the
    output stay, in place, and what is added is nothing, two lines, or an
    odd number of at least three lines, none of them empty. *)
Theorem X5_messaging_appends_only {Session : Type} (c : Controller Session)
    (repo : Repository) (input : PostReceiveInput) (out : Output) :
  exists block,
    value (handlePRMessaging c repo input out)
    = Some {| Messages := Messages out ++ block |}
    /\ Forall (fun m => m <> EmptyString) block
    /\ (block = []
        \/ length block = 2
        \/ exists n, 1 <= n /\ length block = 2 * n + 1).
Proof.
  destruct (handlePRMessaging_cases c repo input out)
    as [H | [(f & err & msg & H) | (f & block & H & Hne & Hlen)]];
    rewrite H; cbn [value fst].
  - exists []. rewrite app_nil_r. destruct out. repeat split; auto.
  - exists []. rewrite app_nil_r. destruct out. repeat split; auto.
  - exists block. repeat split; auto.
Qed.

(** X6: the messaging makes at most two calls, a lookup and, after it, a
    warning; it appends messages exactly when it made a lookup and logged
    no warning, so a push that is looked up with success is always
    answered with messages. *)
Theorem X6_messages_iff_lookup_answered {Session : Type}
    (c : Controller Session) (repo : Repository) (input : PostReceiveInput)
    (out : Output) :
  exists block t,
    handlePRMessaging c repo input out
    = (Some {| Messages := Messages out ++ block |}, t)
    /\ (block <> []
        <-> existsb is_lookup t = true /\ existsb is_warning t = false)
    /\ (t = [] \/ (exists f, t = [PullReqList f])
        \/ exists f err msg, t = [PullReqList f; LogWarn err msg]).
Proof.
  destruct (handlePRMessaging_cases c repo input out)
    as [H | [(f & err & msg & H) | (f & block & H & Hne & Hlen)]];
    rewrite H.
  - exists [], []. rewrite app_nil_r. destruct out. split; [reflexivity|].
    split; [|left; reflexivity].
    split; [intros H0; contradiction | intros [H0 _]; discriminate].
  - exists [], [PullReqList f; LogWarn err msg].
    rewrite app_nil_r. destruct out. split; [reflexivity|].
    split; [|right; right; eauto].
    split; [intros H0; contradiction | intros [_ H0]; discriminate].
  - exists block, [PullReqList f]. split; [reflexivity|].
    split; [|right; left; eauto].
    split; [intros _; split; reflexivity|].
    intros _ ->. destruct Hlen as [Hl | (n & Hn & Hl)]; cbn [length] in Hl; lia.
Qed.

Lemma handlePRMessaging_lookup_ok {Session : Type} (c : Controller Session)
    (repo : Repository) (input : PostReceiveInput) (out : Output)
    (u : ReferenceUpdate) :
  RefUpdates input = [u] ->
  forallb (lookup_ok repo (Ref u)) (trace (handlePRMessaging c repo input out))
  = true.
Proof.
  intros Hus. destruct (spec_pr_messaging_applies input) eqn:E.
  - destruct (spec_pr_messaging_applies_inv input E)
      as (u' & branch & Hus' & Href & Hnew).
    rewrite Hus in Hus'. injection Hus' as <-.
    rewrite (handlePRMessaging_single c repo input out u branch Hus Href Hnew).
    assert (Hl : lookup_ok repo (Ref u) (PullReqList (spec_filter repo branch))
                 = true).
    { cbn [lookup_ok spec_filter SourceRepoID SourceBranch].
      rewrite Z.eqb_refl, Href, String.eqb_refl. reflexivity. }
    destruct (pullreqStore_List c (spec_filter repo branch)) as [[|pr prs]|err];
      cbn [trace snd forallb]; rewrite Hl; reflexivity.
  - rewrite (handlePRMessaging_skip c repo input out E). reflexivity.
Qed.

(** X7: a lookup the hook makes asks for the pull requests of the
    repository the access check returned, not of the identifier the hook
    was called with, and for the source branch whose name, behind
    refs/heads/, is the reference of the single update of the push. *)
Theorem X7_lookup_targets_pushed_branch {Session : Type}
    (c : Controller Session) (session : Session) (repoID principalID : Z)
    (pin : PostReceiveInput) (repo : Repository) (u : ReferenceUpdate) :
  getRepoCheckAccess c session repoID PermissionRepoEdit = Ok repo ->
  RefUpdates pin = [u] ->
  forallb (lookup_ok repo (Ref u))
    (trace (PostReceive c session repoID principalID (Some pin))) = true.
Proof.
  intros Hacc Hus.
  destruct (PostReceive_granted c session repoID principalID pin repo Hacc)
    as (o & _ & ->).
  cbn [trace snd]. rewrite forallb_app.
  rewrite (handlePRMessaging_lookup_ok c repo pin _ u Hus), andb_true_r.
  destruct (reportReferenceEvents_loop_payload repoID principalID
              (RefUpdates pin) (map Ref (RefUpdates pin)) (incl_refl _))
    as (_ & _ & _ & Hev).
  unfold reportReferenceEvents. cbv zeta in Hev.
  refine (forallb_impl _ _ _ _ Hev).
  intros cl Hcl. destruct cl; try reflexivity; discriminate Hcl.
Qed.

(** X7 on a hook called for repository 9 whose access check returns the
    repository 7: the events name 9, the lookup asks for 7. *)
Lemma X7_witness :
  forallb (lookup_ok exampleRepo "refs/heads/feature")
    (trace (PostReceive (exampleController exampleDB) tt 9 3
              (Some (pushOf "refs/heads/feature" sha_abc sha_def)))) = true.
Proof.
  apply (X7_lookup_targets_pushed_branch (exampleController exampleDB) tt 9 3
           (pushOf "refs/heads/feature" sha_abc sha_def) exampleRepo
           {| Ref := "refs/heads/feature"; Old := sha_abc; New := sha_def |}).
  - reflexivity.
  - reflexivity.
Defined.

Lemma spec_pr_messaging_applies_congr (i1 i2 : PostReceiveInput) :
  map ref_and_new (RefUpdates i1) = map ref_and_new (RefUpdates i2) ->
  spec_pr_messaging_applies i1 = spec_pr_messaging_applies i2.
Proof.
  unfold spec_pr_messaging_applies.
  destruct (RefUpdates i1) as [|u1 [|u1' us1]];
    destruct (RefUpdates i2) as [|u2 [|u2' us2]];
    try discriminate; try reflexivity.
  cbn [map]. unfold ref_and_new. intros [= -> ->]. reflexivity.
Qed.

(** X8: the messaging reads of a push only the references and the new
    SHAs of its updates: two pushes that differ in old SHAs alone, as the
    creation of a branch and an update of it, are answered alike. *)
Theorem X8_messaging_ignores_old_sha {Session : Type} (c : Controller Session)
    (repo : Repository) (i1 i2 : PostReceiveInput) (out : Output) :
  map ref_and_new (RefUpdates i1) = map ref_and_new (RefUpdates i2) ->
  handlePRMessaging c repo i1 out = handlePRMessaging c repo i2 out.
Proof.
  intros Heq. pose proof (spec_pr_messaging_applies_congr i1 i2 Heq) as Happ.
  destruct (spec_pr_messaging_applies i1) eqn:E1.
  - destruct (spec_pr_messaging_applies_inv i1 E1)
      as (u1 & branch & Hus1 & Href1 & Hnew1).
    destruct (spec_pr_messaging_applies_inv i2 (eq_sym Happ))
      as (u2 & branch2 & Hus2 & Href2 & Hnew2).
    rewrite Hus1, Hus2 in Heq. cbn [map] in Heq. unfold ref_and_new in Heq.
    injection Heq as HR HN. rewrite HR in Href1.
    rewrite (handlePRMessaging_single c repo i1 out u1 branch Hus1
               (eq_trans HR Href1) Hnew1).
    rewrite (handlePRMessaging_single c repo i2 out u2 branch Hus2 Href1 Hnew2).
    reflexivity.
  - rewrite (handlePRMessaging_skip c repo i1 out E1).
    rewrite (handlePRMessaging_skip c repo i2 out (eq_sym Happ)).
    reflexivity.
Qed.

(** X8 on the creation and on an update of refs/heads/feature. *)
Lemma X8_witness :
  handlePRMessaging (exampleController exampleDB) exampleRepo
    (pushOf "refs/heads/feature" NilSHA sha_def) {| Messages := [] |}
  = handlePRMessaging (exampleController exampleDB) exampleRepo
      (pushOf "refs/heads/feature" sha_abc sha_def) {| Messages := [] |}.
Proof.
  apply (X8_messaging_ignores_old_sha (exampleController exampleDB) exampleRepo
           (pushOf "refs/heads/feature" NilSHA sha_def)
           (pushOf "refs/heads/feature" sha_abc sha_def) {| Messages := [] |}).
  reflexivity.
Defined.

Lemma filter_app_split {A} (p : A -> bool) (l1 l2 : list A) :
  forallb p l1 = true ->
  forallb (fun a => negb (p a)) l2 = true ->
  filter p (l1 ++ l2) = l1.
Proof.
  intros H1 H2. rewrite filter_app.
  replace (filter p l2) with (@nil A).
  - rewrite app_nil_r. induction l1 as [|a l1 IH]; [reflexivity|].
    cbn [forallb] in H1. apply andb_true_iff in H1 as [Ha Hl].
    cbn [filter]. rewrite Ha, (IH Hl). reflexivity.
  - induction l2 as [|a l2 IH]; [reflexivity|].
    cbn [forallb] in H2. apply andb_true_iff in H2 as [Ha Hl].
    apply negb_true_iff in Ha. cbn [filter]. rewrite Ha. exact (IH Hl).
Qed.

(** X9: with access granted, the hook dispatches all events of the push
    before the messaging makes its first call, and the events do not depend
    on the store: they are those of the reporting, whether the lookup
    succeeds, fails or is not made. *)
Theorem X9_events_precede_messaging {Session : Type} (c : Controller Session)
    (session : Session) (repoID principalID : Z) (pin : PostReceiveInput)
    (repo : Repository) :
  getRepoCheckAccess c session repoID PermissionRepoEdit = Ok repo ->
  exists rest,
    trace (PostReceive c session repoID principalID (Some pin))
    = trace (reportReferenceEvents repoID principalID pin) ++ rest
    /\ forallb is_event (trace (reportReferenceEvents repoID principalID pin))
       = true
    /\ forallb (fun cl => negb (is_event cl)) rest = true
    /\ filter is_event
         (trace (PostReceive c session repoID principalID (Some pin)))
       = trace (reportReferenceEvents repoID principalID pin).
Proof.
  intros Hacc.
  destruct (PostReceive_granted c session repoID principalID pin repo Hacc)
    as (o & _ & ->).
  destruct (handlePRMessaging_total c repo pin {| Messages := [] |})
    as (o' & t & Hrun & Hnon & _).
  destruct (reportReferenceEvents_loop_payload repoID principalID
              (RefUpdates pin) (map Ref (RefUpdates pin)) (incl_refl _))
    as (_ & _ & _ & Hev).
  cbv zeta in Hev. fold (reportReferenceEvents repoID principalID pin) in Hev.
  exists t. rewrite Hrun. cbn [trace snd].
  repeat split; auto.
  apply filter_app_split; assumption.
Qed.

(** X9 on a push of a branch against a store that fails: the event is
    dispatched, then the lookup and the warning follow. *)
Lemma X9_witness :
  exists rest,
    trace (PostReceive failingStoreController tt 7 3
             (Some (pushOf "refs/heads/feature" sha_abc sha_def)))
    = trace (reportReferenceEvents 7 3
               (pushOf "refs/heads/feature" sha_abc sha_def)) ++ rest
    /\ forallb is_event
         (trace (reportReferenceEvents 7 3
                   (pushOf "refs/heads/feature" sha_abc sha_def))) = true
    /\ forallb (fun cl => negb (is_event cl)) rest = true
    /\ filter is_event
         (trace (PostReceive failingStoreController tt 7 3
                   (Some (pushOf "refs/heads/feature" sha_abc sha_def))))
       = trace (reportReferenceEvents 7 3
                  (pushOf "refs/heads/feature" sha_abc sha_def)).
Proof.
  apply (X9_events_precede_messaging failingStoreController tt 7 3
           (pushOf "refs/heads/feature" sha_abc sha_def) exampleRepo).
  reflexivity.
Defined.

(** ** Space attributes *)

Example space_attr_runs :
  exampleParse "UID" = SpaceAttrUID
  /\ exampleParse "Created_At" = SpaceAttrCreated
  /\ exampleParse "updated" = SpaceAttrUpdated
  /\ exampleParse "path" = SpaceAttrNone
  /\ exampleParse "" = SpaceAttrNone
  /\ exampleString SpaceAttrCreated = "created"
  /\ exampleString SpaceAttrNone = ""
  /\ exampleString 7%Z = "undefined"
  /\ exampleString (-1)%Z = "undefined".
Proof. repeat split. Qed.

Lemma eqb_not_In (v : string) (l : list string) (x : string) :
  ~ In v l -> In x l -> (v =? x)%string = false.
Proof.
  intros Hn Hx. apply String.eqb_neq. intros ->. exact (Hn Hx).
Qed.

Lemma ParseSpaceAttr_range (uid created createdAt updated updatedAt : string)
    (ToLower : string -> string) (s : string) :
  (0 <= ParseSpaceAttr uid created createdAt updated updatedAt ToLower s <= 3)%Z.
Proof.
  unfold ParseSpaceAttr, SpaceAttrUID, SpaceAttrCreated, SpaceAttrUpdated,
    SpaceAttrNone.
  cbv zeta.
  destruct (ToLower s =? uid)%string;
    [|destruct ((ToLower s =? created) || (ToLower s =? createdAt))%string;
      [|destruct ((ToLower s =? updated) || (ToLower s =? updatedAt))%string]];
    lia.
Qed.

Lemma SpaceAttr_round_trip_in_range
    (uid created createdAt updated updatedAt undefined : string)
    (ToLower : string -> string) (a : SpaceAttr) :
  NoDup (parse_cases uid created createdAt updated updatedAt) ->
  ~ In EmptyString (parse_cases uid created createdAt updated updatedAt) ->
  ToLower uid = uid ->
  ToLower created = created ->
  ToLower updated = updated ->
  ToLower EmptyString = EmptyString ->
  (0 <= a <= 3)%Z ->
  ParseSpaceAttr uid created createdAt updated updatedAt ToLower
    (SpaceAttr_String uid created updated undefined a) = a.
Proof.
  unfold parse_cases. intros Hnd Hne Hu Hc Hup He Ha.
  inversion Hnd as [|? ? Hn1 Hnd1]; subst.
  inversion Hnd1 as [|? ? Hn2 Hnd2]; subst.
  inversion Hnd2 as [|? ? Hn3 Hnd3]; subst.
  assert (Hcu : (created =? uid)%string = false).
  { apply String.eqb_neq. intros E. apply Hn1. left. exact E. }
  assert (Huu : (updated =? uid)%string = false).
  { apply String.eqb_neq. intros E. apply Hn1. cbn. auto. }
  assert (Huc : (updated =? created)%string = false).
  { apply String.eqb_neq. intros E. apply Hn2. cbn. auto. }
  assert (Hua : (updated =? createdAt)%string = false).
  { apply String.eqb_neq. intros E. apply Hn3. cbn. auto. }
  assert (Ha' : a = 0%Z \/ a = 1%Z \/ a = 2%Z \/ a = 3%Z) by lia.
  unfold ParseSpaceAttr, SpaceAttr_String, SpaceAttrUID, SpaceAttrCreated,
    SpaceAttrUpdated, SpaceAttrNone.
  destruct Ha' as [-> | [-> | [-> | ->]]]; cbn [Z.eqb Pos.eqb]; cbv zeta.
  - rewrite He.
    rewrite !(eqb_not_In EmptyString _ _ Hne) by (cbn; auto 6).
    reflexivity.
  - rewrite Hu, String.eqb_refl. reflexivity.
  - rewrite Hc, Hcu, String.eqb_refl. reflexivity.
  - rewrite Hup, Huu, Huc, Hua, String.eqb_refl. reflexivity.
Qed.

(** X10: printing an attribute of the enumeration and parsing the result
    gives the attribute back, given what holds of the constants of the
    package: the case constants of the parser differ from one another and
    from the empty string, and lower-casing leaves the printed names as
    they are.  Hence printing and parsing again does not change what the
    parser returns. *)
Theorem X10_space_attr_parse_after_string
    (uid created createdAt updated updatedAt undefined : string)
    (ToLower : string -> string) :
  NoDup (parse_cases uid created createdAt updated updatedAt) ->
  ~ In EmptyString (parse_cases uid created createdAt updated updatedAt) ->
  ToLower uid = uid ->
  ToLower created = created ->
  ToLower updated = updated ->
  ToLower EmptyString = EmptyString ->
  let parse := ParseSpaceAttr uid created createdAt updated updatedAt ToLower in
  let print := SpaceAttr_String uid created updated undefined in
  (forall a,
     In a [SpaceAttrNone; SpaceAttrUID; SpaceAttrCreated; SpaceAttrUpdated] ->
     parse (print a) = a)
  /\ (forall s, parse (print (parse s)) = parse s).
Proof.
  intros Hnd Hne Hu Hc Hup He parse print. split.
  - intros a Ha. apply SpaceAttr_round_trip_in_range; auto.
    unfold SpaceAttrNone, SpaceAttrUID, SpaceAttrCreated, SpaceAttrUpdated in Ha.
    cbn [In] in Ha. lia.
  - intros s. apply SpaceAttr_round_trip_in_range; auto.
    apply ParseSpaceAttr_range.
Qed.

Lemma example_cases_NoDup :
  NoDup (parse_cases "uid" "created" "created_at" "updated" "updated_at").
Proof.
  unfold parse_cases.
  repeat (constructor; [cbn [In]; intuition discriminate|]). constructor.
Qed.

(** X10 on the names uid, created, created_at, updated and updated_at with
    the lower-casing of ASCII letters. *)
Lemma X10_witness :
  (forall a,
     In a [SpaceAttrNone; SpaceAttrUID; SpaceAttrCreated; SpaceAttrUpdated] ->
     exampleParse (exampleString a) = a)
  /\ (forall s, exampleParse (exampleString (exampleParse s)) = exampleParse s).
Proof.
  apply (X10_space_attr_parse_after_string
           "uid" "created" "created_at" "updated" "updated_at" "undefined"
           asciiToLower).
  - exact example_cases_NoDup.
  - unfold parse_cases. cbn [In]. intuition discriminate.
  - reflexivity.
  - reflexivity.
  - reflexivity.
  - reflexivity.
Defined.

(** X11: an attribute outside the enumeration, below SpaceAttrNone or above
    SpaceAttrUpdated, is printed as the undefined name; when that name,
    lower-cased, is none of the case constants of the parser, it parses to
    SpaceAttrNone, so the attribute is not recovered. *)
Theorem X11_space_attr_outside_enumeration
    (uid created createdAt updated updatedAt undefined : string)
    (ToLower : string -> string) (a : SpaceAttr) :
  ~ In (ToLower undefined) (parse_cases uid created createdAt updated updatedAt) ->
  (a < SpaceAttrNone \/ SpaceAttrUpdated < a)%Z ->
  SpaceAttr_String uid created updated undefined a = undefined
  /\ ParseSpaceAttr uid created createdAt updated updatedAt ToLower
       (SpaceAttr_String uid created updated undefined a) = SpaceAttrNone
  /\ ParseSpaceAttr uid created createdAt updated updatedAt ToLower
       (SpaceAttr_String uid created updated undefined a) <> a.
Proof.
  unfold SpaceAttrNone, SpaceAttrUpdated. intros Hn Ha.
  assert (Hs : SpaceAttr_String uid created updated undefined a = undefined).
  { unfold SpaceAttr_String, SpaceAttrUID, SpaceAttrCreated, SpaceAttrUpdated,
      SpaceAttrNone.
    destruct (Z.eqb_spec a 1); [lia|]. destruct (Z.eqb_spec a 2); [lia|].
    destruct (Z.eqb_spec a 3); [lia|]. destruct (Z.eqb_spec a 0); [lia|].
    reflexivity. }
  assert (Hp : ParseSpaceAttr uid created createdAt updated updatedAt ToLower
                 undefined = 0%Z).
  { unfold ParseSpaceAttr, parse_cases in *. cbv zeta.
    rewrite !(eqb_not_In (ToLower undefined) _ _ Hn) by (cbn; auto 6).
    reflexivity. }
  rewrite Hs, Hp. repeat split. lia.
Qed.

(** X11 on the attribute 7. *)
Lemma X11_witness :
  exampleString 7%Z = "undefined"
  /\ exampleParse (exampleString 7%Z) = SpaceAttrNone
  /\ exampleParse (exampleString 7%Z) <> 7%Z.
Proof.
  apply (X11_space_attr_outside_enumeration
           "uid" "created" "created_at" "updated" "updated_at" "undefined"
           asciiToLower 7%Z).
  - unfold parse_cases. cbn. intuition discriminate.
  - right. reflexivity.
Defined.

(** X12: the parser takes createdAt for created and updatedAt for updated:
    parsing such an alias and printing the result gives the other name, so
    printing after parsing is not the identity on the strings the parser
    accepts. *)
Theorem X12_space_attr_aliases
    (uid created createdAt updated updatedAt undefined : string)
    (ToLower : string -> string) :
  NoDup (parse_cases uid created createdAt updated updatedAt) ->
  ToLower createdAt = createdAt ->
  ToLower updatedAt = updatedAt ->
  let parse := ParseSpaceAttr uid created createdAt updated updatedAt ToLower in
  let print := SpaceAttr_String uid created updated undefined in
  parse createdAt = SpaceAttrCreated
  /\ parse updatedAt = SpaceAttrUpdated
  /\ print (parse createdAt) = created
  /\ print (parse updatedAt) = updated
  /\ created <> createdAt
  /\ updated <> updatedAt.
Proof.
  intros Hnd Hc Hu. cbv zeta. unfold parse_cases in Hnd.
  set (parse := ParseSpaceAttr uid created createdAt updated updatedAt ToLower).
  inversion Hnd as [|? ? Hn1 Hnd1]; subst.
  inversion Hnd1 as [|? ? Hn2 Hnd2]; subst.
  inversion Hnd2 as [|? ? Hn3 Hnd3]; subst.
  inversion Hnd3 as [|? ? Hn4 Hnd4]; subst.
  assert (E1 : (createdAt =? uid)%string = false).
  { apply String.eqb_neq. intros E. apply Hn1. cbn. auto. }
  assert (E2 : (updatedAt =? uid)%string = false).
  { apply String.eqb_neq. intros E. apply Hn1. cbn. auto 6. }
  assert (E3 : (updatedAt =? created)%string = false).
  { apply String.eqb_neq. intros E. apply Hn2. cbn. auto 6. }
  assert (E4 : (updatedAt =? createdAt)%string = false).
  { apply String.eqb_neq. intros E. apply Hn3. cbn. auto. }
  assert (P1 : parse createdAt = SpaceAttrCreated).
  { unfold parse, ParseSpaceAttr. cbv zeta.
    rewrite Hc, E1, String.eqb_refl, orb_true_r. reflexivity. }
  assert (P2 : parse updatedAt = SpaceAttrUpdated).
  { unfold parse, ParseSpaceAttr. cbv zeta.
    rewrite Hu, E2, E3, E4, String.eqb_refl, orb_true_r. reflexivity. }
  rewrite P1, P2. repeat split.
  - intros E. apply Hn2. left. exact (eq_sym E).
  - intros E. apply Hn4. left. exact (eq_sym E).
Qed.

(** X12 on the names uid, created, created_at, updated and updated_at. *)
Lemma X12_witness :
  exampleParse "created_at" = SpaceAttrCreated
  /\ exampleParse "updated_at" = SpaceAttrUpdated
  /\ exampleString (exampleParse "created_at") = "created"
  /\ exampleString (exampleParse "updated_at") = "updated"
  /\ "created" <> "created_at"
  /\ "updated" <> "updated_at".
Proof.
  apply (X12_space_attr_aliases
           "uid" "created" "created_at" "updated" "updated_at" "undefined"
           asciiToLower).
  - exact example_cases_NoDup.
  - reflexivity.
  - reflexivity.
Defined.

(** ** The branch and tag selector *)

Example js_replace_runs :
  js_replace "refs/tags/" "" "refs/tags/v1.0" = "v1.0"
  /\ js_replace "refs/tags/" "" "main" = "main"
  /\ js_replace "refs/tags/" "" "a/refs/tags/b/refs/tags/c" = "a/b/refs/tags/c"
  /\ js_replace "" "x" "abc" = "xabc"
  /\ js_replace "b" "xy" "abcb" = "axycb"
  /\ js_includes "refs/tags/" "a/refs/tags/b" = true
  /\ js_includes "refs/tags/" "refs/tag" = false.
Proof. repeat split. Qed.

Lemma js_replace_unfold (pattern replacement s : string) :
  js_replace pattern replacement s
  = if String.prefix pattern s then
      (replacement ++ string_drop (String.length pattern) s)%string
    else
      match s with
      | EmptyString => EmptyString
      | String a s' => String a (js_replace pattern replacement s')
      end.
Proof. destruct s; reflexivity. Qed.

Lemma js_includes_unfold (pattern s : string) :
  js_includes pattern s
  = String.prefix pattern s
    || match s with
       | EmptyString => false
       | String _ s' => js_includes pattern s'
       end.
Proof. destruct s; reflexivity. Qed.

Lemma string_drop_append (p s : string) :
  string_drop (String.length p) (p ++ s) = s.
Proof. induction p as [|a p IH]; [destruct s; reflexivity | exact IH]. Qed.

Lemma string_drop_length (n : nat) (s : string) :
  String.length (string_drop n s) = String.length s - n.
Proof.
  revert s. induction n as [|n IH]; intros s.
  - cbn. lia.
  - destruct s as [|a s]; [reflexivity|]. cbn. apply IH.
Qed.

Lemma prefix_length (p s : string) :
  String.prefix p s = true -> String.length p <= String.length s.
Proof.
  revert s. induction p as [|a p IH]; intros s H.
  - cbn. lia.
  - destruct s as [|b s]; cbn in H; [discriminate|].
    destruct (ascii_dec a b); [|discriminate].
    cbn [String.length]. specialize (IH s H). lia.
Qed.

Lemma js_includes_length (p s : string) :
  js_includes p s = true -> String.length p <= String.length s.
Proof.
  induction s as [|a s IH]; rewrite js_includes_unfold; intros H;
    apply orb_true_iff in H as [H|H].
  - apply prefix_length, H.
  - discriminate H.
  - apply prefix_length, H.
  - cbn [String.length]. specialize (IH H). lia.
Qed.

(** Nothing is replaced in a string that does not include the pattern. *)
Lemma js_replace_absent (p r s : string) :
  js_includes p s = false -> js_replace p r s = s.
Proof.
  induction s as [|a s IH]; rewrite js_includes_unfold, js_replace_unfold;
    intros H; apply orb_false_iff in H as [Hp Hs]; rewrite Hp.
  - reflexivity.
  - rewrite (IH Hs). reflexivity.
Qed.

(** Removing the pattern from a string that includes it shortens the string
    by the length of the pattern. *)
Lemma js_replace_remove_length (p s : string) :
  js_includes p s = true ->
  String.length (js_replace p "" s) = String.length s - String.length p.
Proof.
  induction s as [|a s IH]; rewrite js_includes_unfold, js_replace_unfold;
    intros H; destruct (String.prefix p _) eqn:Hp.
  - cbn [append]. apply string_drop_length.
  - discriminate H.
  - cbn [append]. apply string_drop_length.
  - cbn [orb] in H. cbn [String.length]. rewrite (IH H).
    pose proof (js_includes_length p s H). lia.
Qed.

(** X13: the label of the button undoes the choice of a tag: for every name,
    the label of the reference handed over for the tag of that name is the
    name.  For a branch the label is the name when the name does not
    include the prefix of tags; when it does, and the prefix is not empty,
    the label is shorter than the name by the length of the prefix, and so
    differs from it. *)
Theorem X13_button_text_of_selected_ref (REFS_TAGS_PREFIX name : string) :
  buttonText REFS_TAGS_PREFIX (selectedRef REFS_TAGS_PREFIX name TAG) = name
  /\ (js_includes REFS_TAGS_PREFIX name = false ->
      buttonText REFS_TAGS_PREFIX (selectedRef REFS_TAGS_PREFIX name BRANCH)
      = name)
  /\ (REFS_TAGS_PREFIX <> EmptyString ->
      js_includes REFS_TAGS_PREFIX name = true ->
      String.length
        (buttonText REFS_TAGS_PREFIX (selectedRef REFS_TAGS_PREFIX name BRANCH))
      = String.length name - String.length REFS_TAGS_PREFIX
      /\ buttonText REFS_TAGS_PREFIX (selectedRef REFS_TAGS_PREFIX name BRANCH)
         <> name).
Proof.
  unfold buttonText, selectedRef. split; [|split].
  - rewrite js_replace_unfold.
    pose proof (HasPrefix_append REFS_TAGS_PREFIX name) as Hp.
    unfold HasPrefix in Hp. rewrite Hp. cbn [append].
    apply string_drop_append.
  - apply js_replace_absent.
  - intros Hne Hin.
    pose proof (js_replace_remove_length REFS_TAGS_PREFIX name Hin) as Hlen.
    split; [exact Hlen|].
    intros E. rewrite E in Hlen.
    pose proof (js_includes_length _ _ Hin).
    destruct REFS_TAGS_PREFIX; [contradiction|]. cbn [String.length] in *. lia.
Qed.

(** X13 on the prefix refs/tags/ and a branch named archive/refs/tags/v1. *)
Lemma X13_witness :
  String.length
    (buttonText "refs/tags/" (selectedRef "refs/tags/" "archive/refs/tags/v1" BRANCH))
  = String.length "archive/refs/tags/v1" - String.length "refs/tags/"
  /\ buttonText "refs/tags/" (selectedRef "refs/tags/" "archive/refs/tags/v1" BRANCH)
     <> "archive/refs/tags/v1".
Proof.
  apply (proj2 (proj2 (X13_button_text_of_selected_ref
                         "refs/tags/" "archive/refs/tags/v1"))).
  - discriminate.
  - reflexivity.
Defined.
